(** * evfi helpers: typed dataset codec, table lookups and quarter dates

    A shallow embedding of [helpers.py].  The helpers are thin Python
    functions over pandas, so the development has three layers:

    - the Python primitives the helpers use themselves ([str.rstrip],
      [str.split], [",".join], [next(f)], [dict(zip(..))], the [with]
      statement);
    - the fragment of pandas the helpers call ([DataFrame.to_csv],
      [read_csv], boolean-mask [.loc], [pd.Timestamp]);
    - the helpers, written line by line after the source.

    pandas is the pandas of the 2.x releases with its C parser: a column
    of strings has dtype [object], and a column of timestamps has dtype
    [datetime64[ns]].  Text is a [string] whose characters are the code
    points 0..255.  Integers are [Z]. *)

From Stdlib Require Import String Ascii List ZArith Lia Bool Arith.
From Stdlib Require Import DecimalString DecimalZ.
Import ListNotations.

Local Open Scope string_scope.
Local Open Scope Z_scope.

(* ================================================================== *)
(** * Python: exceptions and results *)
(* ================================================================== *)

(** The exception classes that the helpers can propagate.  pandas'
    [OutOfBoundsDatetime] and [IntCastingNaNError] are subclasses of
    [ValueError] and are folded into it. *)
Inductive exn : Type :=
| StopIteration
| IndexError
| ValueError
| OverflowError
| TypeError
| ParserError
| FileNotFoundError.

(** Result of running a helper.  [Unmodelled] marks inputs on which the
    embedded fragment of pandas says nothing (column types that are
    inferred or have an unknown tag, records shorter than the header,
    quotes outside the CSV grammar, values that only a fallback conversion
    of [read_csv] could accept).  The theorems below state outcomes that
    are [Return] or [Raise], or compare the outcomes of two runs. *)
Inductive outcome (A : Type) : Type :=
| Return (a : A)
| Raise (e : exn)
| Unmodelled.

Arguments Return {A} a.
Arguments Raise {A} e.
Arguments Unmodelled {A}.

Definition bind {A B : Type} (m : outcome A) (k : A -> outcome B) : outcome B :=
  match m with
  | Return a => k a
  | Raise e => Raise e
  | Unmodelled => Unmodelled
  end.

Notation "x <- m ;; k" := (bind m (fun x => k))
  (at level 61, m at next level, right associativity).

(* ================================================================== *)
(** * Lookups in the mapping table *)
(* ================================================================== *)

(** One row of the municipality/region mapping table: two integer
    identifier columns and six name columns. *)
Record mapping_row : Type := mk_mapping_row {
  municipality_id : Z;
  region_id : Z;
  region_fi : string;
  region_sv : string;
  region_en : string;
  municipality_fi : string;
  municipality_sv : string;
  municipality_en : string
}.

Definition mappings_table : Type := list mapping_row.

(** [mappings.loc[mask, column]]: the cells of [column] in the rows selected
    by the boolean mask, in table order. *)
Definition loc {A : Type} (mask : mapping_row -> bool) (column : mapping_row -> A)
    (mappings : mappings_table) : list A :=
  map column (filter mask mappings).

(** [series.empty] *)
Definition empty {A : Type} (series : list A) : bool :=
  match series with
  | [] => true
  | _ :: _ => false
  end.

(** [series.values[0]]: indexing an empty array raises [IndexError]. *)
Definition values_0 {A : Type} (series : list A) : outcome A :=
  match series with
  | [] => Raise IndexError
  | v :: _ => Return v
  end.

(** [get_rid_by_mid(municipality_id, mappings)] *)
Definition get_rid_by_mid (mid : Z) (mappings : mappings_table) : outcome (option Z) :=
  let match_ := loc (fun r => municipality_id r =? mid) region_id mappings in
  if empty match_ then Return None
  else v <- values_0 match_ ;; Return (Some v).

(** [get_rid_by_name(region_name, mappings)] *)
Definition get_rid_by_name (region_name : string) (mappings : mappings_table)
    : outcome (option Z) :=
  if String.eqb region_name "WHOLE COUNTRY" then Return (Some 0)
  else
    let match_ :=
      loc (fun r => String.eqb (region_fi r) region_name
                    || String.eqb (region_sv r) region_name
                    || String.eqb (region_en r) region_name)
          region_id mappings in
    if empty match_ then Return None
    else v <- values_0 match_ ;; Return (Some v).

(** [get_mid_by_name(municipality_name, mappings)] *)
Definition get_mid_by_name (municipality_name : string) (mappings : mappings_table)
    : outcome (option Z) :=
  let match_ :=
    loc (fun r => String.eqb (municipality_fi r) municipality_name
                  || String.eqb (municipality_sv r) municipality_name
                  || String.eqb (municipality_en r) municipality_name)
        municipality_id mappings in
  if empty match_ then Return None
  else v <- values_0 match_ ;; Return (Some v).

(** [get_name_by_mid(municipality_id, mappings)]: indexes [.values[0]]
    directly, without the [match.empty] test of its siblings. *)
Definition get_name_by_mid (mid : Z) (mappings : mappings_table)
    : outcome (option string) :=
  municipality_name <-
    values_0 (loc (fun r => municipality_id r =? mid) municipality_en mappings) ;;
  Return (Some municipality_name).

(* ================================================================== *)
(** * Quarter dates *)
(* ================================================================== *)

(** A calendar date as [pd.Timestamp(year, month, day)] holds it. *)
Record Timestamp : Type := mk_Timestamp {
  ts_year : Z;
  ts_month : Z;
  ts_day : Z
}.

(** Years that Python's [datetime] accepts ([MINYEAR] to [MAXYEAR]).
    [pd.Timestamp] is a [datetime] subclass, so no pandas release accepts a
    year outside this range; releases with nanosecond-only timestamps
    accept fewer. *)
Definition datetime_year (year : Z) : bool :=
  (1 <=? year) && (year <=? 9999).

(** How the constructor refuses a year outside that range: its arguments
    are converted to C integers first, so a year that does not fit 32 bits
    is an [OverflowError]; any other year is a [ValueError]. *)
Definition datetime_refusal (year : Z) : exn :=
  if (- 2 ^ 31 <=? year) && (year <=? 2 ^ 31 - 1) then ValueError else OverflowError.

Section Quarter.

(** The years the installed pandas can represent in a [Timestamp], and the
    exception with which it refuses each of the others. *)
Variable representable : Z -> bool.
Variable refusal : Z -> exn.

(** [pd.Timestamp(year, month, day)] for a day that exists in every year
    (the helper only passes month ends of 30 and 31 days): raises when the
    year cannot be represented. *)
Definition pd_Timestamp (year month day : Z) : outcome Timestamp :=
  if representable year then Return (mk_Timestamp year month day)
  else Raise (refusal year).

(** [get_last_day_of_quarter(year, quarter)]; falling off the end of the
    [if]/[elif] chain returns [None]. *)
Definition get_last_day_of_quarter (year quarter : Z) : outcome (option Timestamp) :=
  if quarter =? 1 then t <- pd_Timestamp year 3 31 ;; Return (Some t)
  else if quarter =? 2 then t <- pd_Timestamp year 6 30 ;; Return (Some t)
  else if quarter =? 3 then t <- pd_Timestamp year 9 30 ;; Return (Some t)
  else if quarter =? 4 then t <- pd_Timestamp year 12 31 ;; Return (Some t)
  else Return None.

End Quarter.

(* ================================================================== *)
(** * Python: text *)
(* ================================================================== *)

Definition LF : ascii := "010"%char.
Definition CR : ascii := "013"%char.
Definition COMMA : ascii := ","%char.
Definition QUOTE : ascii := "034"%char.
Definition NUL : ascii := "000"%char.

(** [c.isspace()] for a code point below 256: TAB..CR, FS..US, space, NEL
    and NBSP. *)
Definition isspace (c : ascii) : bool :=
  let n := nat_of_ascii c in
  ((9 <=? n) && (n <=? 13) || (28 <=? n) && (n <=? 32)
   || (n =? 133) || (n =? 160))%nat.

(** [s.rstrip()]: drop the trailing run of whitespace. *)
Fixpoint rstrip (s : string) : string :=
  match s with
  | EmptyString => EmptyString
  | String c r =>
      match rstrip r with
      | EmptyString => if isspace c then EmptyString else String c EmptyString
      | r' => String c r'
      end
  end.

(** [s.split(sep)] for a one-character separator; [split sep ""] is
    [[""]] as in Python. *)
Fixpoint split (sep : ascii) (s : string) : list string :=
  match s with
  | EmptyString => [EmptyString]
  | String c r =>
      if Ascii.eqb c sep then EmptyString :: split sep r
      else match split sep r with
           | h :: t => String c h :: t
           | [] => [String c EmptyString]
           end
  end.

(** [sep.join(parts)] *)
Fixpoint join (sep : string) (parts : list string) : string :=
  match parts with
  | [] => EmptyString
  | [x] => x
  | x :: rest => x ++ sep ++ join sep rest
  end.

(** [c in s] *)
Fixpoint contains (c : ascii) (s : string) : bool :=
  match s with
  | EmptyString => false
  | String d r => Ascii.eqb d c || contains c r
  end.

(** Reading in text mode with universal newlines: [CR LF] and a lone [CR]
    arrive as [LF]. *)
Fixpoint universal_newlines (s : string) : string :=
  match s with
  | EmptyString => EmptyString
  | String c r =>
      if Ascii.eqb c CR then
        match r with
        | String d r' =>
            if Ascii.eqb d LF then String LF (universal_newlines r')
            else String LF (universal_newlines r)
        | EmptyString => String LF EmptyString
        end
      else String c (universal_newlines r)
  end.

(** The next line of a text stream, terminator included, and what follows
    it. *)
Fixpoint take_line (s : string) : string * string :=
  match s with
  | EmptyString => (EmptyString, EmptyString)
  | String c r =>
      if Ascii.eqb c LF then (String c EmptyString, r)
      else let (l, rest) := take_line r in (String c l, rest)
  end.

(** [dict]: insertion keeps the position of an existing key and replaces
    its value. *)
Definition dict : Type := list (string * string).

Fixpoint dict_set (k v : string) (d : dict) : dict :=
  match d with
  | [] => [(k, v)]
  | (k', v') :: d' =>
      if String.eqb k' k then (k', v) :: d' else (k', v') :: dict_set k v d'
  end.

Definition dict_of (pairs : list (string * string)) : dict :=
  fold_left (fun d kv => dict_set (fst kv) (snd kv) d) pairs [].

Fixpoint dict_get (k : string) (d : dict) : option string :=
  match d with
  | [] => None
  | (k', v) :: d' => if String.eqb k' k then Some v else dict_get k d'
  end.

(** [zip(a, b)] stops at the shorter argument. *)
Definition zip {A B : Type} (a : list A) (b : list B) : list (A * B) := combine a b.


(** [str(z)] and [str(b)] *)
Definition str_int (z : Z) : string := NilZero.string_of_int (Z.to_int z).

Definition str_bool (b : bool) : string := if b then "True" else "False".

(** Every character of the text satisfies [p]. *)
Fixpoint all_chars (p : ascii -> bool) (s : string) : bool :=
  match s with
  | EmptyString => true
  | String c r => p c && all_chars p r
  end.

Definition digit (c : ascii) : bool :=
  let n := nat_of_ascii c in ((48 <=? n) && (n <=? 57))%nat.

(* ================================================================== *)
(** * Python: files and the [with] statement *)
(* ================================================================== *)

Inductive mode : Type := rt | wt.

Inductive event : Type :=
| Acquire (fd : nat)
| Release (fd : nat).

(** An open file object: the file it was opened on and, for reading, the
    text not yet consumed. *)
Record file_object : Type := mk_file_object {
  fo_name : string;
  fo_unread : string
}.

(** The world a helper runs in: the files by name, the open file objects by
    descriptor, the next free descriptor, and the history of acquisitions
    and releases. *)
Record world : Type := mk_world {
  files : string -> option string;
  open_files : list (nat * file_object);
  next_fd : nat;
  history : list event
}.

Definition io (A : Type) : Type := world -> outcome A * world.

Definition io_ret {A : Type} (a : A) : io A := fun w => (Return a, w).

Definition io_lift {A : Type} (r : outcome A) : io A := fun w => (r, w).

Definition io_bind {A B : Type} (m : io A) (k : A -> io B) : io B :=
  fun w =>
    match m w with
    | (Return a, w') => k a w'
    | (Raise e, w') => (Raise e, w')
    | (Unmodelled, w') => (Unmodelled, w')
    end.

Notation "x <~ m ;; k" := (io_bind m (fun x => k))
  (at level 61, m at next level, right associativity).

Definition set_file (fs : string -> option string) (filename text : string)
    : string -> option string :=
  fun n => if String.eqb n filename then Some text else fs n.

Fixpoint lookup_fd (fd : nat) (l : list (nat * file_object)) : option file_object :=
  match l with
  | [] => None
  | (k, o) :: l' => if Nat.eqb k fd then Some o else lookup_fd fd l'
  end.

Fixpoint update_fd (fd : nat) (o : file_object) (l : list (nat * file_object))
    : list (nat * file_object) :=
  match l with
  | [] => []
  | (k, o') :: l' => if Nat.eqb k fd then (k, o) :: l' else (k, o') :: update_fd fd o l'
  end.

Fixpoint remove_fd (fd : nat) (l : list (nat * file_object)) : list (nat * file_object) :=
  match l with
  | [] => []
  | (k, o) :: l' => if Nat.eqb k fd then l' else (k, o) :: remove_fd fd l'
  end.

(** [open(filename, mode)] on a POSIX system, where text written is stored
    as it is: writing creates or truncates the file; reading a file that
    does not exist raises and acquires nothing.  A file is known by the
    text of its name (two names are two files), and other I/O failures
    (permissions, a full disk) are not part of the world. *)
Definition open_ (filename : string) (m : mode) : io nat :=
  fun w =>
    let fd := next_fd w in
    match m with
    | wt =>
        (Return fd,
         mk_world (set_file (files w) filename EmptyString)
                  ((fd, mk_file_object filename EmptyString) :: open_files w)
                  (S fd) (history w ++ [Acquire fd]))
    | rt =>
        match files w filename with
        | None => (Raise FileNotFoundError, w)
        | Some text =>
            (Return fd,
             mk_world (files w)
                      ((fd, mk_file_object filename (universal_newlines text)) :: open_files w)
                      (S fd) (history w ++ [Acquire fd]))
        end
    end.

(** [f.close()] *)
Definition close (fd : nat) (w : world) : world :=
  mk_world (files w) (remove_fd fd (open_files w)) (next_fd w) (history w ++ [Release fd]).

(** [with open(filename, mode) as f: body]: the file object is closed when
    the block is left, by a return or by an exception. *)
Definition with_open {A : Type} (filename : string) (m : mode) (body : nat -> io A) : io A :=
  fun w =>
    match open_ filename m w with
    | (Return f, w1) => let (r, w2) := body f w1 in (r, close f w2)
    | (Raise e, w1) => (Raise e, w1)
    | (Unmodelled, w1) => (Unmodelled, w1)
    end.

(** [f.write(text)]: appends to the file; a closed file object raises
    [ValueError]. *)
Definition f_write (f : nat) (text : string) : io unit :=
  fun w =>
    match lookup_fd f (open_files w) with
    | None => (Raise ValueError, w)
    | Some o =>
        let old := match files w (fo_name o) with Some t => t | None => EmptyString end in
        (Return tt,
         mk_world (set_file (files w) (fo_name o) (old ++ text))
                  (open_files w) (next_fd w) (history w))
    end.

(** [next(f)]: the next line, or [StopIteration] at the end of the file. *)
Definition next (f : nat) : io string :=
  fun w =>
    match lookup_fd f (open_files w) with
    | None => (Raise ValueError, w)
    | Some o =>
        match fo_unread o with
        | EmptyString => (Raise StopIteration, w)
        | unread =>
            let (line, rest) := take_line unread in
            (Return line,
             mk_world (files w) (update_fd f (mk_file_object (fo_name o) rest) (open_files w))
                      (next_fd w) (history w))
        end
    end.

(** [f.read()]: all the unread text. *)
Definition f_read (f : nat) : io string :=
  fun w =>
    match lookup_fd f (open_files w) with
    | None => (Raise ValueError, w)
    | Some o =>
        (Return (fo_unread o),
         mk_world (files w)
                  (update_fd f (mk_file_object (fo_name o) EmptyString) (open_files w))
                  (next_fd w) (history w))
    end.

(* ================================================================== *)
(** * pandas: what the embedding takes as given *)
(* ================================================================== *)

(** The floating-point numbers and the timestamps of pandas are not
    computed here.  The embedding takes as given the values a float64 cell
    and a datetime64 cell can hold (NaN and NaT apart: they are the missing
    value), the text [to_csv] writes for them, and the float that the
    tokenizer reads from a field. *)
Class text_formats : Type := mk_text_formats {
  float64 : Type;
  datetime64 : Type;
  (** [repr] of a float, which [to_csv] writes. *)
  float_str : float64 -> string;
  (** The float parser of the tokenizer: the float that a field denotes,
      when the field is a float literal. *)
  xstrtod : string -> option float64;
  (** The text of a timestamp in a column of the given cells (the date
      alone when every cell of the column is at midnight). *)
  datetime_str : list (option datetime64) -> datetime64 -> string
}.

Section Pandas.

Context {F : text_formats}.

(* ================================================================== *)
(** * pandas: the data frame fragment *)
(* ================================================================== *)

(** Column types of the fragment: the six scalar types of the
    specification's data model. *)
Inductive dtype : Type :=
| dt_int64
| dt_bool
| dt_object
| dt_float64
| dt_datetime64
| dt_category.

(** [str(dtype)]: the type tag written to the first line. *)
Definition str_dtype (t : dtype) : string :=
  match t with
  | dt_int64 => "int64"
  | dt_bool => "bool"
  | dt_object => "object"
  | dt_float64 => "float64"
  | dt_datetime64 => "datetime64[ns]"
  | dt_category => "category"
  end.

(** The dtype that a tag of the [dtype=] argument names, for the tags of
    the fragment. *)
Definition dtype_of_tag (tag : string) : option dtype :=
  if String.eqb tag "int64" then Some dt_int64
  else if String.eqb tag "bool" then Some dt_bool
  else if String.eqb tag "object" then Some dt_object
  else if String.eqb tag "float64" then Some dt_float64
  else if String.eqb tag "datetime64[ns]" then Some dt_datetime64
  else if String.eqb tag "category" then Some dt_category
  else None.

(** The cells of one column.  An object column holds strings, a category
    column strings as well (its categories are the strings that occur);
    [None] is the missing value (NaN, NaT). *)
Inductive Series : Type :=
| IntSeries (cells : list Z)
| BoolSeries (cells : list bool)
| ObjectSeries (cells : list (option string))
| FloatSeries (cells : list (option float64))
| DatetimeSeries (cells : list (option datetime64))
| CategorySeries (cells : list (option string)).

Record column : Type := mk_column {
  name : string;
  values : Series
}.

(** A data frame: its columns in order.  The row index plays no part
    ([index=False] on writing, a fresh range index on reading). *)
Definition DataFrame : Type := list column.

Definition series_dtype (s : Series) : dtype :=
  match s with
  | IntSeries _ => dt_int64
  | BoolSeries _ => dt_bool
  | ObjectSeries _ => dt_object
  | FloatSeries _ => dt_float64
  | DatetimeSeries _ => dt_datetime64
  | CategorySeries _ => dt_category
  end.

Definition series_len (s : Series) : nat :=
  match s with
  | IntSeries l => length l
  | BoolSeries l => length l
  | ObjectSeries l => length l
  | FloatSeries l => length l
  | DatetimeSeries l => length l
  | CategorySeries l => length l
  end.

(** [dataset.dtypes] and [dataset.columns] *)
Definition dtypes (df : DataFrame) : list dtype := map (fun c => series_dtype (values c)) df.
Definition columns_of (df : DataFrame) : list string := map name df.

(** [len(dataset)] *)
Definition nrows (df : DataFrame) : nat :=
  match df with
  | [] => O
  | c :: _ => series_len (values c)
  end.

(** ** Writing: [DataFrame.to_csv] *)

(** The text of a cell that may be missing; a missing value is written as
    the empty field ([na_rep=""]). *)
Definition cell_text {A : Type} (text : A -> string) (x : option A) : string :=
  match x with
  | Some v => text v
  | None => EmptyString
  end.

(** The text of each cell of a column. *)
Definition series_text (s : Series) : list string :=
  match s with
  | IntSeries l => map str_int l
  | BoolSeries l => map str_bool l
  | ObjectSeries l => map (cell_text (fun t => t)) l
  | FloatSeries l => map (cell_text float_str) l
  | DatetimeSeries l => map (cell_text (datetime_str l)) l
  | CategorySeries l => map (cell_text (fun t => t)) l
  end.

(** The [n] rows of a table given by columns; also turns rows into the
    first [n] columns, reading an absent field as empty. *)
Fixpoint transpose (n : nat) (lists : list (list string)) : list (list string) :=
  match n with
  | O => []
  | S k => map (hd EmptyString) lists :: transpose k (map (@tl string) lists)
  end.

(** [csv.writer] with [QUOTE_MINIMAL] and the line terminator ["\n"]: a
    field is quoted when it holds the delimiter, the quote character or a
    character of the line terminator, and quotes inside it are doubled. *)
Definition needs_quote (field : string) : bool :=
  contains COMMA field || contains QUOTE field || contains LF field.

Fixpoint double_quotes (s : string) : string :=
  match s with
  | EmptyString => EmptyString
  | String c r =>
      if Ascii.eqb c QUOTE then String QUOTE (String QUOTE (double_quotes r))
      else String c (double_quotes r)
  end.

Definition csv_field (field : string) : string :=
  if needs_quote field
  then String QUOTE (double_quotes field ++ String QUOTE EmptyString)
  else field.

(** [writer.writerow(fields)] without the terminator; a record of one empty
    field is written as a pair of quotes. *)
Definition csv_row (fields : list string) : string :=
  match fields with
  | [EmptyString] => String QUOTE (String QUOTE EmptyString)
  | _ => join "," (map csv_field fields)
  end.

Definition NL : string := String LF EmptyString.

(** The text [dataset.to_csv(f, index=False, lineterminator="\n")] writes:
    the header record, then one record per row. *)
Definition to_csv_text (df : DataFrame) : string :=
  String.concat EmptyString
    (map (fun r => csv_row r ++ NL)
         (columns_of df :: transpose (nrows df) (map (fun c => series_text (values c)) df))).

(** ** Reading: [read_csv] *)

(** The default NA markers of [read_csv]. *)
Definition na_values : list string :=
  [ EmptyString; "#N/A"; "#N/A N/A"; "#NA"; "-1.#IND"; "-1.#QNAN"; "-NaN"; "-nan";
    "1.#IND"; "1.#QNAN"; "<NA>"; "N/A"; "NA"; "NULL"; "NaN"; "None"; "n/a";
    "nan"; "null" ].

Definition is_na (field : string) : bool :=
  existsb (String.eqb field) na_values.

(** A line that the tokenizer skips ([skip_blank_lines]): empty, or spaces
    and tabs only. *)
Fixpoint blank (line : string) : bool :=
  match line with
  | EmptyString => true
  | String c r => (Ascii.eqb c " " || Ascii.eqb c "009") && blank r
  end.

(** The records of a quote-free text: its non-blank lines, split at the
    delimiter. *)
Definition tokenize (text : string) : list (list string) :=
  map (split COMMA) (filter (fun l => negb (blank l)) (split LF text)).

(** The tokenizer proper, a state machine over the characters of the text
    (the text of a file opened in text mode holds no carriage return).  A
    scan returns the fields of the record in progress, the first of them
    being what is left of the field in progress, and the records after it. *)
Inductive tstate : Type :=
| START_RECORD
| WHITESPACE_LINE
| START_FIELD
| IN_FIELD
| IN_QUOTED_FIELD
| QUOTE_IN_QUOTED_FIELD.

Definition scanned : Type := (list string * list (list string))%type.

(** [PUSH_CHAR]: the character goes in front of the field in progress (a
    skipped line has no field in progress). *)
Definition push (c : ascii) (r : scanned) : scanned :=
  match fst r with
  | f :: fs => (String c f :: fs, snd r)
  | [] => r
  end.

(** [END_FIELD]: the field in progress ends here; the record goes on. *)
Definition end_field (r : scanned) : scanned := (EmptyString :: fst r, snd r).

(** [END_FIELD] and [END_LINE]: the record in progress ends with the field;
    what follows starts a record. *)
Definition end_line (r : scanned) : scanned := ([EmptyString], snd r).

(** The record in progress, if there is one, joins the records. *)
Definition close_record (r : scanned) : scanned :=
  match fst r with
  | [] => r
  | fields => ([], fields :: snd r)
  end.

(** A character met in an unquoted field.  A quote character there is
    outside the CSV grammar and is left unmodelled. *)
Definition field_char (c : ascii) (rest : tstate -> option scanned) : option scanned :=
  if Ascii.eqb c COMMA then option_map end_field (rest START_FIELD)
  else if Ascii.eqb c LF then option_map end_line (rest START_RECORD)
  else if Ascii.eqb c QUOTE then None
  else option_map (push c) (rest IN_FIELD).

(** [tokenize_bytes] with the defaults of [read_csv]: comma delimiter,
    double quote with doubling, blank lines skipped.  A line of spaces and
    tabs is skipped; when another character ends the run of blanks the
    line is scanned as a record from its start.  At the end of the text a
    field in progress ends the last record; the end of the text inside a
    quoted field, and a character other than quote, comma and line feed
    after a closing quote, are left unmodelled. *)
Fixpoint scan (st : tstate) (s : string) : option scanned :=
  match s with
  | EmptyString =>
      match st with
      | START_RECORD | WHITESPACE_LINE => Some ([], [])
      | IN_QUOTED_FIELD => None
      | START_FIELD | IN_FIELD | QUOTE_IN_QUOTED_FIELD => Some ([EmptyString], [])
      end
  | String c r =>
      match st with
      | START_RECORD =>
          if Ascii.eqb c LF then scan START_RECORD r
          else if Ascii.eqb c " " || Ascii.eqb c "009"
          then option_map (fun x => close_record (push c x)) (scan WHITESPACE_LINE r)
          else if Ascii.eqb c QUOTE then option_map close_record (scan IN_QUOTED_FIELD r)
          else option_map close_record (field_char c (fun st' => scan st' r))
      | WHITESPACE_LINE =>
          if Ascii.eqb c LF then scan START_RECORD r
          else if Ascii.eqb c " " || Ascii.eqb c "009"
          then option_map (push c) (scan WHITESPACE_LINE r)
          else field_char c (fun st' => scan st' r)
      | START_FIELD =>
          if Ascii.eqb c QUOTE then scan IN_QUOTED_FIELD r
          else field_char c (fun st' => scan st' r)
      | IN_FIELD => field_char c (fun st' => scan st' r)
      | IN_QUOTED_FIELD =>
          if Ascii.eqb c QUOTE then scan QUOTE_IN_QUOTED_FIELD r
          else option_map (push c) (scan IN_QUOTED_FIELD r)
      | QUOTE_IN_QUOTED_FIELD =>
          if Ascii.eqb c QUOTE then option_map (push c) (scan IN_QUOTED_FIELD r)
          else if Ascii.eqb c COMMA then option_map end_field (scan START_FIELD r)
          else if Ascii.eqb c LF then option_map end_line (scan START_RECORD r)
          else None
      end
  end.

(** The records of a text. *)
Definition records (text : string) : option (list (list string)) :=
  option_map snd (scan START_RECORD text).

(** Field counts against the [n] given names.  A record after the first
    with more than [n] fields, all earlier ones having [n], is the
    tokenizer's "Expected n fields" error.  Short records and an over-long
    first record (implicit index columns) are left unmodelled. *)
Inductive arity : Type := Fits | TooMany | NotCovered.

Fixpoint row_arity (n : nat) (first : bool) (rows : list (list string)) : arity :=
  match rows with
  | [] => Fits
  | r :: rest =>
      if (length r =? n)%nat then row_arity n false rest
      else if (n <? length r)%nat && negb first then TooMany
      else NotCovered
  end.

(** [isspace_ascii] of pandas' tokenizer. *)
Definition isspace_ascii (c : ascii) : bool :=
  let n := nat_of_ascii c in ((n =? 32) || (9 <=? n) && (n <=? 13))%nat.

Fixpoint lstrip_ascii (s : string) : string :=
  match s with
  | EmptyString => EmptyString
  | String c r => if isspace_ascii c then lstrip_ascii r else s
  end.

Fixpoint rstrip_ascii (s : string) : string :=
  match s with
  | EmptyString => EmptyString
  | String c r =>
      match rstrip_ascii r with
      | EmptyString => if isspace_ascii c then EmptyString else String c EmptyString
      | r' => String c r'
      end
  end.

Inductive int_parse : Type :=
| Parsed (z : Z)
| ErrOverflow
| ErrInvalid.

(** [str_to_int64] of pandas' tokenizer: optional blanks, an optional sign,
    at least one digit, optional blanks, nothing else; the value must fit
    64 bits. *)
Definition str_to_int64 (item : string) : int_parse :=
  let p := lstrip_ascii item in
  let '(isneg, p) :=
    match p with
    | String c r =>
        if Ascii.eqb c "-" then (true, r)
        else if Ascii.eqb c "+" then (false, r)
        else (false, p)
    | EmptyString => (false, p)
    end in
  match NilZero.uint_of_string (rstrip_ascii p) with
  | None => ErrInvalid
  | Some d =>
      let number := if isneg then - Z.of_uint d else Z.of_uint d in
      if (- 2 ^ 63 <=? number) && (number <=? 2 ^ 63 - 1) then Parsed number
      else ErrOverflow
  end.

(** [toupper] in the C locale. *)
Definition toupper (c : ascii) : ascii :=
  let n := nat_of_ascii c in
  if ((97 <=? n) && (n <=? 122))%nat then ascii_of_nat (n - 32) else c.

Fixpoint upper (s : string) : string :=
  match s with
  | EmptyString => EmptyString
  | String c r => String (toupper c) (upper r)
  end.

(** [to_boolean] of pandas' tokenizer: TRUE or FALSE in any letter case. *)
Definition to_boolean (item : string) : option bool :=
  if String.eqb (upper item) "TRUE" then Some true
  else if String.eqb (upper item) "FALSE" then Some false
  else None.

(** When the parser of the declared dtype refuses a field, [read_csv]
    infers a dtype for the column and casts the result, which succeeds for
    some fields ("1.0" in an int64 column, "1" in a bool column) and is
    left unmodelled.  No inference reads a number or a truth value from a
    field that holds a character outside the numerals and words of pandas
    and Python (digits, signs, point, underscore, whitespace, and the
    letters of hexadecimal, octal, binary and complex numerals, of
    exponents and of inf, infinity, nan, true, false, yes and no): the
    column is inferred to hold strings, and the cast to an int64, float64
    or bool column raises [ValueError]. *)
Definition numeric_char (c : ascii) : bool :=
  digit c || isspace c
  || contains c "+-._abcdefijlnorstuxyABCDEFIJLNORSTUXY".

Definition hopeless (field : string) : bool := negb (all_chars numeric_char field).

(** Conversion of an int64 column: NA markers are counted, and a column
    with NA markers is refused.  A field beyond 64 bits is retried as an
    unsigned column, which is left unmodelled. *)
Fixpoint parse_int_cells (fields : list string) : outcome (list Z * bool) :=
  match fields with
  | [] => Return ([], false)
  | x :: rest =>
      if is_na x then
        r <- parse_int_cells rest ;; Return (0 :: fst r, true)
      else
        match str_to_int64 x with
        | Parsed z => r <- parse_int_cells rest ;; Return (z :: fst r, snd r)
        | ErrOverflow => Unmodelled
        | ErrInvalid => if hopeless x then Raise ValueError else Unmodelled
        end
  end.

(** Conversion of a bool column: a column of truth values with NA markers
    is refused. *)
Fixpoint parse_bool_cells (fields : list string) : outcome (list bool) :=
  match fields with
  | [] => Return []
  | x :: rest =>
      if is_na x then _ <- parse_bool_cells rest ;; Raise ValueError
      else match to_boolean x with
           | Some b => r <- parse_bool_cells rest ;; Return (b :: r)
           | None => if hopeless x then Raise ValueError else Unmodelled
           end
  end.

(** Conversion of a float64 column: an NA marker is NaN. *)
Fixpoint parse_float_cells (fields : list string) : outcome (list (option float64)) :=
  match fields with
  | [] => Return []
  | x :: rest =>
      if is_na x then r <- parse_float_cells rest ;; Return (None :: r)
      else match xstrtod x with
           | Some v => r <- parse_float_cells rest ;; Return (Some v :: r)
           | None => if hopeless x then Raise ValueError else Unmodelled
           end
  end.

Definition parse_object_cells (fields : list string) : list (option string) :=
  map (fun x => if is_na x then None else Some x) fields.

(** Conversion of the fields of one column to its declared dtype.  A
    datetime64 dtype is refused with [TypeError] ("not supported for
    parsing, pass this column using parse_dates instead") as soon as there
    is a field to convert; without rows no conversion takes place and the
    column is empty. *)
Definition convert_column (t : dtype) (fields : list string) : outcome Series :=
  match t with
  | dt_int64 =>
      r <- parse_int_cells fields ;;
      if snd r then Raise ValueError else Return (IntSeries (fst r))
  | dt_bool => r <- parse_bool_cells fields ;; Return (BoolSeries r)
  | dt_object => Return (ObjectSeries (parse_object_cells fields))
  | dt_float64 => r <- parse_float_cells fields ;; Return (FloatSeries r)
  | dt_datetime64 =>
      match fields with
      | [] => Return (DatetimeSeries [])
      | _ :: _ => Raise TypeError
      end
  | dt_category => Return (CategorySeries (parse_object_cells fields))
  end.

(** Columns are converted in order; the first failure is raised. *)
Fixpoint convert_columns (schema : list (string * dtype)) (cols : list (list string))
    : outcome DataFrame :=
  match schema, cols with
  | (n, t) :: schema', fields :: cols' =>
      s <- convert_column t fields ;;
      rest <- convert_columns schema' cols' ;;
      Return (mk_column n s :: rest)
  | _, _ => Return []
  end.

(** The dtype declared for each name, when every name has one and all are
    in the fragment. *)
Fixpoint declared_dtypes (dtype_arg : dict) (names : list string) : option (list dtype) :=
  match names with
  | [] => Some []
  | n :: rest =>
      match dict_get n dtype_arg with
      | None => None
      | Some tag =>
          match dtype_of_tag tag, declared_dtypes dtype_arg rest with
          | Some t, Some ts => Some (t :: ts)
          | _, _ => None
          end
      end
  end.

Fixpoint has_duplicates (names : list string) : bool :=
  match names with
  | [] => false
  | n :: rest => existsb (String.eqb n) rest || has_duplicates rest
  end.

(** [pd.read_csv(f, dtype=dtype_arg, names=names)] on the unread text of
    [f], with the defaults of the C engine: comma delimiter, blank lines
    skipped, the default NA markers.  Outside the fragment (no names, a
    name without a declared dtype of the fragment, a text outside the CSV
    grammar, field counts that [row_arity] does not cover) the result is
    [Unmodelled].  Inside it duplicate names are refused first, then an
    over-long record is the tokenizer's error, then the columns are
    converted. *)
Definition read_csv_text (text : string) (dtype_arg : dict) (names : list string)
    : outcome DataFrame :=
  if empty names then Unmodelled
  else
    match declared_dtypes dtype_arg names with
    | None => Unmodelled
    | Some ts =>
        match records text with
        | None => Unmodelled
        | Some rows =>
            match row_arity (length names) true rows with
            | NotCovered => Unmodelled
            | a =>
                if has_duplicates names then Raise ValueError
                else match a with
                     | TooMany => Raise ParserError
                     | _ => convert_columns (zip names ts) (transpose (length names) rows)
                     end
            end
        end
    end.

(** [dataset.to_csv(f, index=False, lineterminator="\n")] *)
Definition to_csv (dataset : DataFrame) (f : nat) : io unit :=
  f_write f (to_csv_text dataset).

(** [pd.read_csv(f, dtype=dtype_arg, names=names)]: consumes the rest of
    [f]. *)
Definition read_csv (f : nat) (dtype_arg : dict) (names : list string) : io DataFrame :=
  text <~ f_read f ;; io_lift (read_csv_text text dtype_arg names).

(* ================================================================== *)
(** * The dataset codec *)
(* ================================================================== *)

(** [save_dataset(filename, dataset)] *)
Definition save_dataset (filename : string) (dataset : DataFrame) : io unit :=
  with_open filename wt (fun f =>
    _ <~ f_write f (join "," (map str_dtype (dtypes dataset)) ++ NL) ;;
    to_csv dataset f).

(** [load_dataset(filename)] *)
Definition load_dataset (filename : string) : io DataFrame :=
  with_open filename rt (fun f =>
    line1 <~ next f ;;
    let types := split COMMA (rstrip line1) in
    line2 <~ next f ;;
    let columns := split COMMA (rstrip line2) in
    read_csv f (dict_of (zip columns types)) columns).

(** The text [save_dataset] leaves in the file, and what [load_dataset]
    makes of the text of a file; [save_dataset_run] and [load_dataset_run]
    below relate them to the runs of the two helpers. *)
Definition saved_text (dataset : DataFrame) : string :=
  (join "," (map str_dtype (dtypes dataset)) ++ NL) ++ to_csv_text dataset.

Definition load_text (text : string) : outcome DataFrame :=
  match universal_newlines text with
  | EmptyString => Raise StopIteration
  | stream =>
      let (line1, rest1) := take_line stream in
      match rest1 with
      | EmptyString => Raise StopIteration
      | _ =>
          let (line2, rest2) := take_line rest1 in
          let types := split COMMA (rstrip line1) in
          let columns := split COMMA (rstrip line2) in
          read_csv_text rest2 (dict_of (zip columns types)) columns
      end
  end.

(** A world with the given files and nothing open. *)
Definition initial_world (fs : string -> option string) : world :=
  mk_world fs [] O [].

Definition no_files : string -> option string := fun _ => None.

(* ================================================================== *)
(** * Vocabulary of the properties *)
(* ================================================================== *)

(** ** Lookups *)

(** A row answers a name query when one of its three language variants is
    the key, character for character. *)
Definition region_named (key : string) (r : mapping_row) : Prop :=
  region_fi r = key \/ region_sv r = key \/ region_en r = key.

Definition municipality_named (key : string) (r : mapping_row) : Prop :=
  municipality_fi r = key \/ municipality_sv r = key \/ municipality_en r = key.

(** ** File objects *)

(** An action on the file object [f] at the head of the open-file table
    respects the scope when it leaves the table in place (the entry of [f]
    may change), takes no descriptor and records no event. *)
Definition respects_scope {A : Type} (f : nat) (m : io A) : Prop :=
  forall w o rest,
    open_files w = (f, o) :: rest ->
    exists o',
      open_files (snd (m w)) = (f, o') :: rest
      /\ history (snd (m w)) = history w
      /\ next_fd (snd (m w)) = next_fd w.

(** ** Texts and frames *)

(** The rows of a frame as [to_csv] writes them: the cell texts of row 0,
    row 1, ... *)
Definition rows (df : DataFrame) : list (list string) :=
  transpose (nrows df) (map (fun c => series_text (values c)) df).

Definition digit_or_minus (c : ascii) : bool :=
  let n := nat_of_ascii c in ((48 <=? n) && (n <=? 57) || (n =? 45))%nat.

Definition no_line_break (s : string) : bool :=
  negb (contains LF s) && negb (contains CR s).

(** [text.count(c)] *)
Fixpoint count (c : ascii) (text : string) : nat :=
  match text with
  | EmptyString => O
  | String d r => if Ascii.eqb d c then S (count c r) else count c r
  end.

(** The records of the lines of a quote-free text. *)
Definition lines_records (lines : list string) : list (list string) :=
  map (split COMMA) (filter (fun l => negb (blank l)) lines).

(** The characters of [s] pushed in front of the field in progress. *)
Fixpoint push_str (s : string) (r : scanned) : scanned :=
  match s with
  | EmptyString => r
  | String c s' => push c (push_str s' r)
  end.

(** What follows a field in a record: the end of the text, the delimiter
    or the line feed. *)
Definition delimited (rest : string) : bool :=
  match rest with
  | EmptyString => true
  | String c _ => Ascii.eqb c COMMA || Ascii.eqb c LF
  end.

(** No column name and no value, as it is written, holds a line break. *)
Definition line_break_free (df : DataFrame) : bool :=
  forallb no_line_break (columns_of df)
  && forallb (fun c => forallb no_line_break (series_text (values c))) df.

(** No string value and no category holds a comma or a line break. *)
Definition delimiter_free (df : DataFrame) : bool :=
  forallb (fun c =>
             match values c with
             | ObjectSeries l | CategorySeries l =>
                 forallb (fun x => match x with
                                   | Some t => negb (contains COMMA t) && no_line_break t
                                   | None => true
                                   end) l
             | _ => true
             end) df.

(** A text that the header lines carry unchanged: no comma, no double
    quote, no line break, no NUL character. *)
Definition plain (s : string) : bool :=
  negb (contains COMMA s) && negb (contains QUOTE s)
  && negb (contains LF s) && negb (contains CR s) && negb (contains NUL s).

(** A text that the records carry unchanged: no comma, no line break, no
    NUL character.  It may hold double quotes. *)
Definition clean (s : string) : bool :=
  negb (contains COMMA s)
  && negb (contains LF s) && negb (contains CR s) && negb (contains NUL s).

Definition in_int64 (z : Z) : bool := (- 2 ^ 63 <=? z) && (z <=? 2 ^ 63 - 1).

(** The schema survives the header lines: at least one column; every name
    plain and not empty; no name twice; the last name does not end in
    whitespace. *)
Definition valid_schema (df : DataFrame) : bool :=
  negb (empty df)
  && forallb (fun n => plain n && negb (String.eqb n EmptyString)) (columns_of df)
  && negb (has_duplicates (columns_of df))
  && String.eqb (rstrip (last (columns_of df) EmptyString)) (last (columns_of df) EmptyString).

(** The cells of an integer, boolean or string column survive the records
    unchanged: integers fit 64 bits; a string value is plain and is not one
    of the NA markers of [read_csv] (the empty string is one).  A column of
    another dtype is taken without cells only. *)
Definition valid_cells (s : Series) : bool :=
  match s with
  | IntSeries l => forallb in_int64 l
  | BoolSeries _ => true
  | ObjectSeries l =>
      forallb (fun x => match x with
                        | Some t => plain t && negb (is_na t)
                        | None => true
                        end) l
  | FloatSeries l => empty l
  | DatetimeSeries l => empty l
  | CategorySeries l => empty l
  end.

(** All columns have the length of the frame. *)
Definition rectangular (df : DataFrame) : bool :=
  forallb (fun c => (series_len (values c) =? nrows df)%nat) df.

(** In a frame of a single column no cell is written as a blank line. *)
Definition lone_column_visible (df : DataFrame) : bool :=
  match df with
  | [c] => forallb (fun t => negb (blank t)) (series_text (values c))
  | _ => true
  end.

(** The frames of integer, boolean and string columns that the codec
    carries through a file unchanged. *)
Definition codec_safe (df : DataFrame) : bool :=
  rectangular df && valid_schema df
  && forallb (fun c => valid_cells (values c)) df
  && lone_column_visible df.

(** A frame without rows. *)
Definition zero_rows (df : DataFrame) : bool :=
  forallb (fun c => (series_len (values c) =? 0)%nat) df.

(** The three parts of the text of a saved frame. *)
Definition tag_line (df : DataFrame) : string := join "," (map str_dtype (dtypes df)).

Definition name_line (df : DataFrame) : string := join "," (columns_of df).

Definition body_text (df : DataFrame) : string :=
  String.concat EmptyString (map (fun r => csv_row r ++ NL) (rows df)).

(** One insertion of [dict(pairs)]. *)
Definition dict_step (d : dict) (kv : string * string) : dict :=
  dict_set (fst kv) (snd kv) d.

(** ** Loading *)

(** The two header lines of a file, split into type tags and column names,
    and the text after them; [None] when the file ends before the second
    line starts. *)
Definition header_of (text : string) : option (list string * list string * string) :=
  match universal_newlines text with
  | EmptyString => None
  | stream =>
      let (line1, rest1) := take_line stream in
      match rest1 with
      | EmptyString => None
      | _ =>
          let (line2, rest2) := take_line rest1 in
          Some (split COMMA (rstrip line1), split COMMA (rstrip line2), rest2)
      end
  end.

(** A field that the parser of the dtype reads as it stands. *)
Definition accepts (t : dtype) (field : string) : bool :=
  match t with
  | dt_int64 =>
      negb (is_na field)
      && match str_to_int64 field with Parsed _ => true | _ => false end
  | dt_bool =>
      negb (is_na field)
      && match to_boolean field with Some _ => true | None => false end
  | dt_float64 =>
      is_na field || match xstrtod field with Some _ => true | None => false end
  | dt_object => true
  | dt_datetime64 => false
  | dt_category => true
  end.

(** A field that no conversion of [read_csv] reads as a value of the
    dtype: an NA marker in an int64 or bool column; in an int64, float64 or
    bool column a field with a character that no numeral and no truth value
    holds; any field of a datetime64 column. *)
Definition refuses (t : dtype) (field : string) : bool :=
  match t with
  | dt_int64 => is_na field || hopeless field
  | dt_bool => is_na field || hopeless field
  | dt_float64 =>
      negb (is_na field) && hopeless field
      && match xstrtod field with Some _ => false | None => true end
  | dt_object => false
  | dt_datetime64 => true
  | dt_category => false
  end.

(** A field on which the outcome of the conversion does not depend on a
    fallback: it is read as it stands or it is refused. *)
Definition settled (t : dtype) (field : string) : bool :=
  accepts t field || refuses t field.

(** The exceptions by which pandas refuses a value for a declared dtype
    (the type-coercion error of the specification). *)
Definition coercion_error (e : exn) : Prop := e = ValueError \/ e = TypeError.

(** ** Further vocabulary *)

(** [r] is the first row of the table that satisfies [P]. *)
Definition first_row (P : mapping_row -> Prop) (m : mappings_table) (r : mapping_row) : Prop :=
  exists pre post,
    m = (pre ++ r :: post)%list /\ P r /\ (forall r', In r' pre -> ~ P r').

(** The Gregorian calendar: leap years and the length of a month. *)
Definition is_leap (year : Z) : bool :=
  ((year mod 4 =? 0) && negb (year mod 100 =? 0)) || (year mod 400 =? 0).

Definition days_in_month (year month : Z) : Z :=
  if month =? 2 then (if is_leap year then 29 else 28)
  else if (month =? 4) || (month =? 6) || (month =? 9) || (month =? 11) then 30
  else 31.

(** Calendar order of two dates. *)
Definition date_lt (a b : Timestamp) : Prop :=
  ts_year a < ts_year b
  \/ (ts_year a = ts_year b
      /\ (ts_month a < ts_month b
          \/ (ts_month a = ts_month b /\ ts_day a < ts_day b))).

(** What [read_csv] makes of a string cell: an NA marker is read as the
    missing value. *)
Definition read_back (x : option string) : option string :=
  match x with
  | Some t => if is_na t then None else Some t
  | None => None
  end.

(** What [read_csv] makes of a float cell: the float that its text
    denotes. *)
Definition read_back_float (x : option float64) : option float64 :=
  match x with
  | Some v => if is_na (float_str v) then None else xstrtod (float_str v)
  | None => None
  end.

Definition read_back_series (s : Series) : Series :=
  match s with
  | ObjectSeries l => ObjectSeries (map read_back l)
  | FloatSeries l => FloatSeries (map read_back_float l)
  | CategorySeries l => CategorySeries (map read_back l)
  | _ => s
  end.

Definition read_back_frame (df : DataFrame) : DataFrame :=
  map (fun c => mk_column (name c) (read_back_series (values c))) df.

(** The cells of an integer, boolean or string column pass through the
    records as text: integers fit 64 bits and string values are plain (they
    may be NA markers).  A column of another dtype is taken without cells
    only. *)
Definition plain_cells (s : Series) : bool :=
  match s with
  | IntSeries l => forallb in_int64 l
  | BoolSeries _ => true
  | ObjectSeries l =>
      forallb (fun x => match x with Some t => plain t | None => true end) l
  | FloatSeries l => empty l
  | DatetimeSeries l => empty l
  | CategorySeries l => empty l
  end.

(** [codec_safe] without the condition on NA markers. *)
Definition codec_plain (df : DataFrame) : bool :=
  rectangular df && valid_schema df
  && forallb (fun c => plain_cells (values c)) df
  && lone_column_visible df.

(** The cells pass through the records as text, whatever the dtype:
    integers fit 64 bits; string values and categories are clean; the text
    of a float is clean and is an NA marker or a float literal; a
    datetime64 column has no cells. *)
Definition cells_ready (s : Series) : bool :=
  match s with
  | IntSeries l => forallb in_int64 l
  | BoolSeries _ => true
  | ObjectSeries l =>
      forallb (fun x => match x with Some t => clean t | None => true end) l
  | FloatSeries l =>
      forallb (fun x => match x with
                        | Some v =>
                            clean (float_str v)
                            && (is_na (float_str v)
                                || match xstrtod (float_str v) with
                                   | Some _ => true
                                   | None => false
                                   end)
                        | None => true
                        end) l
  | DatetimeSeries l => empty l
  | CategorySeries l =>
      forallb (fun x => match x with Some t => clean t | None => true end) l
  end.

(** In a frame of a single column no cell is written as a line of spaces
    and tabs (the empty cell is written as a pair of quotes). *)
Definition lone_column_readable (df : DataFrame) : bool :=
  match df with
  | [c] =>
      forallb (fun t => negb (blank t) || String.eqb t EmptyString) (series_text (values c))
  | _ => true
  end.

(** The frames that the codec carries through a file as text. *)
Definition codec_ready (df : DataFrame) : bool :=
  rectangular df && valid_schema df
  && forallb (fun c => cells_ready (values c)) df
  && lone_column_readable df.

(** No string value and no category is an NA marker of [read_csv]. *)
Definition keeps_strings (s : Series) : bool :=
  match s with
  | ObjectSeries l =>
      forallb (fun x => match x with Some t => negb (is_na t) | None => true end) l
  | CategorySeries l =>
      forallb (fun x => match x with Some t => negb (is_na t) | None => true end) l
  | _ => true
  end.

(** The frames that the codec carries through a file up to the text
    precision of their floats. *)
Definition codec_faithful (df : DataFrame) : bool :=
  codec_ready df && forallb (fun c => keeps_strings (values c)) df.

(** The frame with every float replaced by the float that its text
    denotes. *)
Definition text_precision_series (s : Series) : Series :=
  match s with
  | FloatSeries l => FloatSeries (map read_back_float l)
  | _ => s
  end.

Definition text_precision (df : DataFrame) : DataFrame :=
  map (fun c => mk_column (name c) (text_precision_series (values c))) df.

(** The text with every line feed preceded by a carriage return, as a
    system with CR LF line ends stores it. *)
Fixpoint to_crlf (s : string) : string :=
  match s with
  | EmptyString => EmptyString
  | String c r =>
      if Ascii.eqb c LF then String CR (String LF (to_crlf r))
      else String c (to_crlf r)
  end.

(** ** Sample data *)

Definition helsinki : mapping_row :=
  mk_mapping_row 91 1 "Uusimaa" "Nyland" "Uusimaa" "Helsinki" "Helsingfors" "Helsinki".

Definition turku : mapping_row :=
  mk_mapping_row 853 2 "Varsinais-Suomi" "Egentliga Finland" "Southwest Finland"
                 "Turku" "Abo" "Turku".

Definition espoo : mapping_row :=
  mk_mapping_row 49 1 "Uusimaa" "Nyland" "Uusimaa" "Espoo" "Esbo" "Espoo".

(** Two rows that carry the name WHOLE COUNTRY. *)
Definition whole_a : mapping_row :=
  mk_mapping_row 0 7 "KOKO MAA" "HELA LANDET" "WHOLE COUNTRY" "-" "-" "-".

Definition whole_b : mapping_row :=
  mk_mapping_row 0 8 "WHOLE COUNTRY" "WHOLE COUNTRY" "WHOLE COUNTRY" "-" "-" "-".

(** The frame of the specification's scenario. *)
Definition cities : DataFrame :=
  [ mk_column "id" (IntSeries [1; 2]);
    mk_column "name" (ObjectSeries [Some "Helsinki"; Some "Turku"]) ].

(** A frame with the country code of Namibia. *)
Definition countries : DataFrame :=
  [ mk_column "id" (IntSeries [1]);
    mk_column "code" (ObjectSeries [Some "NA"]) ].

(** A frame with two missing values and two NA markers. *)
Definition gaps : DataFrame :=
  [ mk_column "id" (IntSeries [1; 2; 3]);
    mk_column "code" (ObjectSeries [Some "NA"; None; Some "FI"]);
    mk_column "note" (ObjectSeries [Some "ok"; Some "null"; None]) ].

(** A frame without rows, with a column of each dtype. *)
Definition empty_table : DataFrame :=
  [ mk_column "id" (IntSeries []);
    mk_column "name" (ObjectSeries []);
    mk_column "capital" (BoolSeries []);
    mk_column "area" (FloatSeries []);
    mk_column "founded" (DatetimeSeries []);
    mk_column "region" (CategorySeries []) ].

(** A frame whose column name spans two lines. *)
Definition two_line_name : DataFrame :=
  [ mk_column ("population" ++ NL ++ "2024") (IntSeries [5]) ].

(** A frame of one string column whose second cell is a single space. *)
Definition blank_cell : DataFrame :=
  [ mk_column "code" (ObjectSeries [Some "FI"; Some " "; Some "SE"]) ].

(** A frame whose last column name ends in a space. *)
Definition padded_name : DataFrame :=
  [ mk_column "id" (IntSeries [1]); mk_column "name " (ObjectSeries [Some "Helsinki"]) ].

(** A frame with the same name on two columns. *)
Definition twin_names : DataFrame :=
  [ mk_column "id" (IntSeries [1]); mk_column "id" (IntSeries [2]) ].

(** A file with three type tags over two names. *)
Definition surplus_tag_file : string :=
  "int64,object,bool" ++ NL ++ "id,name" ++ NL ++ "1,Helsinki" ++ NL.

(** A file whose second row has a field too many. *)
Definition ragged_file : string :=
  "int64,object" ++ NL ++ "id,name" ++ NL ++ "1,Helsinki" ++ NL ++ "2,Turku,x" ++ NL.

(** A file whose second row holds a word in the integer column. *)
Definition bad_integer_file : string :=
  "int64,object" ++ NL ++ "id,name" ++ NL ++ "1,Helsinki" ++ NL ++ "two,Turku" ++ NL.

(** A file whose boolean column holds an NA marker. *)
Definition bad_boolean_file : string :=
  "int64,bool" ++ NL ++ "id,capital" ++ NL ++ "1,True" ++ NL ++ "2,NA" ++ NL.

End Pandas.

(** ** Sample formats *)

(** The floats without a fractional part, written as Python writes them
    ("715.0"), and the timestamps at midnight, which a column of dates is
    written as ("2024-03-31"). *)
Fixpoint strip_point_zero (s : string) : option string :=
  match s with
  | EmptyString => None
  | String c r =>
      if String.eqb s ".0" then Some EmptyString
      else option_map (String c) (strip_point_zero r)
  end.

Definition whole_str (z : Z) : string := str_int z ++ ".0".

Definition whole_of_str (s : string) : option Z :=
  match strip_point_zero s with
  | Some digits => option_map Z.of_int (NilZero.int_of_string digits)
  | None => None
  end.

Definition two_digits (z : Z) : string :=
  if z <? 10 then "0" ++ str_int z else str_int z.

Definition four_digits (z : Z) : string :=
  if z <? 10 then "000" ++ str_int z
  else if z <? 100 then "00" ++ str_int z
  else if z <? 1000 then "0" ++ str_int z
  else str_int z.

Definition iso_date (t : Timestamp) : string :=
  four_digits (ts_year t) ++ "-" ++ two_digits (ts_month t) ++ "-" ++ two_digits (ts_day t).

Definition sample_formats : text_formats :=
  mk_text_formats Z Timestamp whole_str whole_of_str (fun _ t => iso_date t).

(** Two towns with their areas in square kilometres; a nickname holds
    double quotes and one area is missing. *)
Definition towns : @DataFrame sample_formats :=
  [ mk_column "id" (IntSeries [91; 853]);
    mk_column "name" (ObjectSeries [Some ("Helsinki " ++ String QUOTE ("Stadi" ++ String QUOTE EmptyString)); Some "Turku"]);
    mk_column "capital" (BoolSeries [true; false]);
    mk_column "area" (FloatSeries (F := sample_formats) [Some 715; None]);
    mk_column "region" (CategorySeries [Some "Uusimaa"; Some "Varsinais-Suomi"]) ].

(** A frame with a date column. *)
Definition quarter_ends : @DataFrame sample_formats :=
  [ mk_column "quarter" (IntSeries [1; 2]);
    mk_column "end" (DatetimeSeries (F := sample_formats)
                       [Some (mk_Timestamp 2024 3 31); Some (mk_Timestamp 2024 6 30)]) ].

Ltac step_file_object :=
  repeat (cbn [open_files lookup_fd update_fd fo_unread fo_name]; rewrite ?Nat.eqb_refl).

Section Properties.

Context {F : text_formats}.

(* ================================================================== *)
(** * Properties of the lookups *)
(* ================================================================== *)

Lemma or3_eqb (a b c key : string) :
  (String.eqb a key || String.eqb b key || String.eqb c key) = true
  <-> a = key \/ b = key \/ c = key.
Proof.
  rewrite !orb_true_iff, !String.eqb_eq. tauto.
Qed.

Lemma loc_app {A : Type} (mask : mapping_row -> bool) (col : mapping_row -> A) m1 m2 :
  loc mask col (m1 ++ m2)%list = (loc mask col m1 ++ loc mask col m2)%list.
Proof.
  unfold loc. now rewrite filter_app, map_app.
Qed.

Lemma loc_none {A : Type} (mask : mapping_row -> bool) (col : mapping_row -> A) m :
  (forall r, In r m -> mask r = false) -> loc mask col m = [].
Proof.
  unfold loc. induction m as [|r m IH]; simpl; intros H; [reflexivity|].
  rewrite (H r (or_introl eq_refl)). apply IH. intros r' Hr'. apply H. now right.
Qed.

(** The selection made by a mask, when the first selected row is known. *)
Lemma loc_first {A : Type} (mask : mapping_row -> bool) (col : mapping_row -> A)
    pre r post :
  (forall r', In r' pre -> mask r' = false) -> mask r = true ->
  loc mask col (pre ++ r :: post)%list = col r :: loc mask col post.
Proof.
  intros Hpre Hr. rewrite loc_app, (loc_none _ _ _ Hpre). unfold loc. simpl.
  now rewrite Hr.
Qed.

Lemma not_true_false (b : bool) (P : Prop) : (b = true <-> P) -> ~ P -> b = false.
Proof.
  intros H HP. destruct b; [|reflexivity]. exfalso. apply HP, H. reflexivity.
Qed.

Lemma get_mid_by_name_hit key pre r post :
  municipality_named key r -> (forall r', In r' pre -> ~ municipality_named key r') ->
  get_mid_by_name key (pre ++ r :: post)%list = Return (Some (municipality_id r)).
Proof.
  intros Hr Hpre. unfold get_mid_by_name.
  rewrite loc_first; [reflexivity| |now apply or3_eqb].
  intros r' Hin. eapply not_true_false; [apply or3_eqb|]. now apply Hpre.
Qed.

Lemma get_mid_by_name_miss key m :
  (forall r, In r m -> ~ municipality_named key r) ->
  get_mid_by_name key m = Return None.
Proof.
  intros H. unfold get_mid_by_name. rewrite loc_none; [reflexivity|].
  intros r Hin. eapply not_true_false; [apply or3_eqb|]. now apply H.
Qed.

Lemma get_rid_by_name_hit key pre r post :
  key <> "WHOLE COUNTRY" ->
  region_named key r -> (forall r', In r' pre -> ~ region_named key r') ->
  get_rid_by_name key (pre ++ r :: post)%list = Return (Some (region_id r)).
Proof.
  intros Hk Hr Hpre. unfold get_rid_by_name.
  destruct (String.eqb_spec key "WHOLE COUNTRY") as [E|_]; [contradiction|].
  rewrite loc_first; [reflexivity| |now apply or3_eqb].
  intros r' Hin. eapply not_true_false; [apply or3_eqb|]. now apply Hpre.
Qed.

Lemma get_rid_by_name_miss key m :
  key <> "WHOLE COUNTRY" ->
  (forall r, In r m -> ~ region_named key r) ->
  get_rid_by_name key m = Return None.
Proof.
  intros Hk H. unfold get_rid_by_name.
  destruct (String.eqb_spec key "WHOLE COUNTRY") as [E|_]; [contradiction|].
  rewrite loc_none; [reflexivity|].
  intros r Hin. eapply not_true_false; [apply or3_eqb|]. now apply H.
Qed.

Lemma get_rid_by_mid_miss mid m :
  (forall r, In r m -> municipality_id r <> mid) -> get_rid_by_mid mid m = Return None.
Proof.
  intros H. unfold get_rid_by_mid. rewrite loc_none; [reflexivity|].
  intros r Hin. apply Z.eqb_neq. now apply H.
Qed.

(** Without a matching row [get_name_by_mid] does not return: it raises. *)
Lemma get_name_by_mid_miss mid m :
  (forall r, In r m -> municipality_id r <> mid) -> get_name_by_mid mid m = Raise IndexError.
Proof.
  intros H. unfold get_name_by_mid. rewrite loc_none; [reflexivity|].
  intros r Hin. apply Z.eqb_neq. now apply H.
Qed.

(** C3, at a key with no row: the municipality-name lookup raises
    [IndexError] where the claim promises [None]; on the same table and key
    the sibling lookup by municipality id returns [None], as do the name
    lookups on a name no row carries. *)
Theorem get_name_by_mid_no_row_raises :
  get_name_by_mid 5 [helsinki; turku] = Raise IndexError
  /\ get_rid_by_mid 5 [helsinki; turku] = Return None
  /\ get_rid_by_name "Lappi" [helsinki; turku] = Return None
  /\ get_mid_by_name "Oulu" [helsinki; turku] = Return None.
Proof.
  repeat split; reflexivity.
Qed.

(** C7 as stated fails: for the key "WHOLE COUNTRY" two rows of the table
    carry the name, the first with region id 7, and the lookup answers 0. *)
Lemma whole_country_ignores_rows :
  region_named "WHOLE COUNTRY" whole_a
  /\ region_named "WHOLE COUNTRY" whole_b
  /\ get_rid_by_name "WHOLE COUNTRY" [whole_a; whole_b] = Return (Some 0)
  /\ get_rid_by_name "WHOLE COUNTRY" [whole_a; whole_b] <> Return (Some (region_id whole_a)).
Proof.
  repeat split.
  - right; right; reflexivity.
  - left; reflexivity.
  - discriminate.
Qed.

(** C7, amended: [get_mid_by_name] for every key, and [get_rid_by_name] for
    every key other than "WHOLE COUNTRY", return the identifier of the
    first row in table order one of whose Finnish, Swedish or English names
    equals the key exactly (case included), however many rows match after
    it, and return [None] when no row does. *)
Theorem name_lookup_first_match (key : string) (mappings : mappings_table) :
  ((forall pre r post,
       mappings = (pre ++ r :: post)%list -> municipality_named key r ->
       (forall r', In r' pre -> ~ municipality_named key r') ->
       get_mid_by_name key mappings = Return (Some (municipality_id r)))
   /\ ((forall r, In r mappings -> ~ municipality_named key r) ->
       get_mid_by_name key mappings = Return None))
  /\ (key <> "WHOLE COUNTRY" ->
      (forall pre r post,
          mappings = (pre ++ r :: post)%list -> region_named key r ->
          (forall r', In r' pre -> ~ region_named key r') ->
          get_rid_by_name key mappings = Return (Some (region_id r)))
      /\ ((forall r, In r mappings -> ~ region_named key r) ->
          get_rid_by_name key mappings = Return None)).
Proof.
  split; [split|intros Hk; split].
  - intros pre r post -> Hr Hpre. now apply get_mid_by_name_hit.
  - apply get_mid_by_name_miss.
  - intros pre r post -> Hr Hpre. now apply get_rid_by_name_hit.
  - now apply get_rid_by_name_miss.
Qed.

(** A table where the key "Uusimaa" matches the second and the third row,
    and "Esbo" the third only; the letter case of the key matters. *)
Lemma name_lookup_first_match_witness :
  get_rid_by_name "Uusimaa" [turku; helsinki; espoo] = Return (Some 1)
  /\ get_mid_by_name "Esbo" [turku; helsinki; espoo] = Return (Some 49)
  /\ get_mid_by_name "esbo" [turku; helsinki; espoo] = Return None.
Proof.
  pose proof (name_lookup_first_match "Uusimaa" [turku; helsinki; espoo]) as [_ Hr].
  pose proof (name_lookup_first_match "Esbo" [turku; helsinki; espoo]) as [[Hm _] _].
  pose proof (name_lookup_first_match "esbo" [turku; helsinki; espoo]) as [[_ Hn] _].
  split; [|split].
  - destruct Hr as [Hr _]; [discriminate|].
    apply (Hr [turku] helsinki [espoo] eq_refl).
    + left; reflexivity.
    + intros r' [<-|[]] [H|[H|H]]; discriminate H.
  - apply (Hm [turku; helsinki] espoo [] eq_refl).
    + right; left; reflexivity.
    + intros r' [<-|[<-|[]]] [H|[H|H]]; discriminate H.
  - apply Hn. intros r' [<-|[<-|[<-|[]]]] [H|[H|H]]; discriminate H.
Defined.

(** C9: asked for "WHOLE COUNTRY", [get_rid_by_name] answers 0 whatever the
    mapping table holds; the table is not consulted. *)
Theorem get_rid_by_name_whole_country (mappings : mappings_table) :
  get_rid_by_name "WHOLE COUNTRY" mappings = Return (Some 0).
Proof.
  reflexivity.
Qed.

(* ================================================================== *)
(** * Properties of the quarter dates *)
(* ================================================================== *)

(** C10 as stated fails: year 0 is a year no [Timestamp] holds, and for it
    the function raises instead of returning March 31. *)
Lemma last_day_of_quarter_year_zero :
  get_last_day_of_quarter datetime_year datetime_refusal 0 1 = Raise ValueError
  /\ get_last_day_of_quarter datetime_year datetime_refusal 0 1
     <> Return (Some (mk_Timestamp 0 3 31)).
Proof.
  split; [reflexivity|discriminate].
Qed.

(** C10, amended: for every year that [pd.Timestamp] can represent the
    function returns March 31, June 30, September 30 or December 31 of that
    year for quarter 1, 2, 3 or 4; for any other quarter it returns [None]
    without raising, whatever the year; for quarter 1 to 4 and a year that
    [pd.Timestamp] cannot represent it raises the exception with which the
    constructor refuses that year ([ValueError], or [OverflowError] for a
    year that does not fit a C integer). *)
Theorem get_last_day_of_quarter_spec
    (representable : Z -> bool) (refusal : Z -> exn) (year quarter : Z) :
  (representable year = true ->
     (quarter = 1 ->
      get_last_day_of_quarter representable refusal year quarter
      = Return (Some (mk_Timestamp year 3 31)))
     /\ (quarter = 2 ->
      get_last_day_of_quarter representable refusal year quarter
      = Return (Some (mk_Timestamp year 6 30)))
     /\ (quarter = 3 ->
      get_last_day_of_quarter representable refusal year quarter
      = Return (Some (mk_Timestamp year 9 30)))
     /\ (quarter = 4 ->
      get_last_day_of_quarter representable refusal year quarter
      = Return (Some (mk_Timestamp year 12 31))))
  /\ (quarter <> 1 -> quarter <> 2 -> quarter <> 3 -> quarter <> 4 ->
      get_last_day_of_quarter representable refusal year quarter = Return None)
  /\ (representable year = false -> 1 <= quarter <= 4 ->
      get_last_day_of_quarter representable refusal year quarter = Raise (refusal year)).
Proof.
  unfold get_last_day_of_quarter, pd_Timestamp. split; [|split].
  - intros Hy. repeat split; intros ->; simpl; rewrite Hy; reflexivity.
  - intros H1 H2 H3 H4.
    apply Z.eqb_neq in H1, H2, H3, H4. now rewrite H1, H2, H3, H4.
  - intros Hy Hq.
    assert (Hc : quarter = 1 \/ quarter = 2 \/ quarter = 3 \/ quarter = 4) by lia.
    destruct Hc as [->|[->|[->| ->]]]; simpl; rewrite Hy; reflexivity.
Qed.

Lemma get_last_day_of_quarter_spec_witness :
  get_last_day_of_quarter datetime_year datetime_refusal 2024 2
  = Return (Some (mk_Timestamp 2024 6 30))
  /\ get_last_day_of_quarter datetime_year datetime_refusal 2024 5 = Return None
  /\ get_last_day_of_quarter datetime_year datetime_refusal 10000 4 = Raise ValueError
  /\ get_last_day_of_quarter datetime_year datetime_refusal 2147483648 1 = Raise OverflowError.
Proof.
  split; [|split; [|split]].
  - apply (get_last_day_of_quarter_spec datetime_year datetime_refusal 2024 2); reflexivity.
  - apply (get_last_day_of_quarter_spec datetime_year datetime_refusal 2024 5); discriminate.
  - apply (get_last_day_of_quarter_spec datetime_year datetime_refusal 10000 4);
      [reflexivity|lia].
  - apply (get_last_day_of_quarter_spec datetime_year datetime_refusal 2147483648 1);
      [reflexivity|lia].
Defined.

(* ================================================================== *)
(** * Properties of the file handling *)
(* ================================================================== *)

Lemma respects_io_lift {A : Type} f (r : outcome A) : respects_scope f (io_lift r).
Proof.
  intros w o rest H. exists o. auto.
Qed.

Lemma respects_io_bind {A B : Type} f (m : io A) (k : A -> io B) :
  respects_scope f m -> (forall a, respects_scope f (k a)) ->
  respects_scope f (io_bind m k).
Proof.
  intros Hm Hk w o rest H. unfold io_bind.
  destruct (Hm w o rest H) as (o1 & H1 & H2 & H3).
  destruct (m w) as [[a|e|] w1]; simpl in *.
  - destruct (Hk a w1 o1 rest H1) as (o2 & K1 & K2 & K3).
    exists o2. repeat split; congruence.
  - exists o1. auto.
  - exists o1. auto.
Qed.

Lemma lookup_fd_head f o rest : lookup_fd f ((f, o) :: rest) = Some o.
Proof.
  simpl. now rewrite Nat.eqb_refl.
Qed.

Lemma update_fd_head f o o' rest : update_fd f o' ((f, o) :: rest) = (f, o') :: rest.
Proof.
  simpl. now rewrite Nat.eqb_refl.
Qed.

Lemma respects_f_write f text : respects_scope f (f_write f text).
Proof.
  intros w o rest H. unfold f_write. rewrite H, lookup_fd_head.
  exists o. auto.
Qed.

Lemma respects_next f : respects_scope f (next f).
Proof.
  intros w o rest H. unfold next. rewrite H, lookup_fd_head.
  destruct (fo_unread o) as [|c u].
  - exists o. auto.
  - destruct (take_line (String c u)) as [line rest'].
    rewrite update_fd_head. eexists. cbn [snd open_files history next_fd]. auto.
Qed.

Lemma respects_f_read f : respects_scope f (f_read f).
Proof.
  intros w o rest H. unfold f_read. rewrite H, lookup_fd_head, update_fd_head.
  eexists. cbn [snd open_files history next_fd]. auto.
Qed.

Lemma respects_read_csv f d names : respects_scope f (read_csv f d names).
Proof.
  unfold read_csv. apply respects_io_bind; [apply respects_f_read|].
  intros a. apply respects_io_lift.
Qed.

(** What [with] guarantees for a body that respects the scope: once the
    file is open, the call records one acquisition and one release of the
    same descriptor and leaves the open-file table as it found it, on every
    outcome of the body. *)
Lemma with_open_scoped {A : Type} filename m (body : nat -> io A) w :
  (forall f, respects_scope f (body f)) ->
  match open_ filename m w with
  | (Return f, _) =>
      history (snd (with_open filename m body w))
        = (history w ++ [Acquire f; Release f])%list
      /\ open_files (snd (with_open filename m body w)) = open_files w
  | (_, w1) => snd (with_open filename m body w) = w1
  end.
Proof.
  intros Hb. unfold with_open.
  destruct (open_ filename m w) as [[f| |] w1] eqn:E; [|reflexivity|reflexivity].
  assert (Hw1 : exists o, open_files w1 = (f, o) :: open_files w
                          /\ history w1 = (history w ++ [Acquire f])%list).
  { unfold open_ in E. destruct m.
    - destruct (files w filename); inversion E; subst; simpl; eauto.
    - inversion E; subst; simpl; eauto. }
  destruct Hw1 as (o & Ho & Hh).
  destruct (Hb f w1 o (open_files w) Ho) as (o' & K1 & K2 & K3).
  destruct (body f w1) as [r w2]. simpl in *.
  rewrite K1, K2, Hh. simpl. rewrite Nat.eqb_refl. split; [|reflexivity].
  now rewrite <- app_assoc.
Qed.

Lemma respects_save_body dataset f :
  respects_scope f
    (_ <~ f_write f (join "," (map str_dtype (dtypes dataset)) ++ NL) ;; to_csv dataset f).
Proof.
  apply respects_io_bind; [apply respects_f_write|].
  intros _. apply respects_f_write.
Qed.

Lemma respects_load_body f :
  respects_scope f
    (line1 <~ next f ;;
     let types := split COMMA (rstrip line1) in
     line2 <~ next f ;;
     let columns := split COMMA (rstrip line2) in
     read_csv f (dict_of (zip columns types)) columns).
Proof.
  apply respects_io_bind; [apply respects_next|]. intros line1.
  apply respects_io_bind; [apply respects_next|]. intros line2.
  apply respects_read_csv.
Qed.

(** C8: a call of [save_dataset] acquires one file object and releases it
    before it returns.  A call of [load_dataset] on an existing file does
    the same whether it returns a frame or raises; on a missing file the
    [open] itself raises and nothing is acquired.  In every case the table
    of open file objects is afterwards what it was before the call. *)
Theorem codec_file_object_scoped (filename : string) (dataset : DataFrame) (w : world) :
  (history (snd (save_dataset filename dataset w))
     = (history w ++ [Acquire (next_fd w); Release (next_fd w)])%list
   /\ open_files (snd (save_dataset filename dataset w)) = open_files w)
  /\ match files w filename with
     | Some _ =>
         history (snd (load_dataset filename w))
           = (history w ++ [Acquire (next_fd w); Release (next_fd w)])%list
         /\ open_files (snd (load_dataset filename w)) = open_files w
     | None => load_dataset filename w = (Raise FileNotFoundError, w)
     end.
Proof.
  split.
  - exact (with_open_scoped filename wt _ w (respects_save_body dataset)).
  - pose proof (with_open_scoped filename rt _ w respects_load_body) as H.
    unfold load_dataset. unfold with_open in *. unfold open_ in *.
    destruct (files w filename) as [text|]; [exact H|reflexivity].
Qed.

(** An exit by exception: the file has one line only, [next] raises
    [StopIteration] inside the block, and the file object has been released
    when the exception reaches the caller. *)
Lemma load_dataset_releases_on_error :
  let w := initial_world (set_file no_files "d.csv" ("int64" ++ NL)) in
  fst (load_dataset "d.csv" w) = Raise StopIteration
  /\ history (snd (load_dataset "d.csv" w)) = [Acquire O; Release O]
  /\ open_files (snd (load_dataset "d.csv" w)) = [].
Proof.
  repeat split; reflexivity.
Qed.

(* ================================================================== *)
(** * Text lemmas *)
(* ================================================================== *)

Lemma append_nil_r (s : string) : s ++ EmptyString = s.
Proof.
  induction s as [|c s IH]; simpl; [reflexivity|now rewrite IH].
Qed.

Lemma append_assoc (a b c : string) : (a ++ b) ++ c = a ++ (b ++ c).
Proof.
  induction a as [|x a IH]; simpl; [reflexivity|now rewrite IH].
Qed.

Lemma contains_app c a b : contains c (a ++ b) = contains c a || contains c b.
Proof.
  induction a as [|x a IH]; simpl; [reflexivity|].
  now rewrite IH, orb_assoc.
Qed.

Lemma universal_newlines_id s : contains CR s = false -> universal_newlines s = s.
Proof.
  induction s as [|c s IH]; simpl; [reflexivity|].
  intros H. apply orb_false_iff in H as [Hc Hs].
  rewrite Hc. now rewrite IH.
Qed.

Lemma take_line_app l rest :
  contains LF l = false -> take_line (l ++ String LF rest) = (l ++ NL, rest).
Proof.
  induction l as [|c l IH]; simpl; intros H.
  - reflexivity.
  - apply orb_false_iff in H as [Hc Hl].
    rewrite Hc, (IH Hl). reflexivity.
Qed.

Lemma rstrip_app_NL l : rstrip (l ++ NL) = rstrip l.
Proof.
  induction l as [|c l IH]; simpl; [reflexivity|now rewrite IH].
Qed.

(** [rstrip] leaves a text alone when it is not empty and does not end in
    whitespace. *)
Lemma rstrip_app_fixed a b :
  b <> EmptyString -> rstrip b = b -> rstrip (a ++ b) = a ++ b.
Proof.
  intros Hb Hfix. induction a as [|c a IH]; simpl; [exact Hfix|].
  rewrite IH. destruct (a ++ b) eqn:E; [|reflexivity].
  destruct a; simpl in E; [contradiction|discriminate].
Qed.

Lemma split_no_sep sep s : contains sep s = false -> split sep s = [s].
Proof.
  induction s as [|c s IH]; simpl; intros H; [reflexivity|].
  apply orb_false_iff in H as [Hc Hs]. rewrite Hc, (IH Hs). reflexivity.
Qed.

Lemma split_app_sep sep a b :
  contains sep a = false -> split sep (a ++ String sep b) = a :: split sep b.
Proof.
  induction a as [|c a IH]; simpl; intros H.
  - now rewrite Ascii.eqb_refl.
  - apply orb_false_iff in H as [Hc Ha]. rewrite Hc, (IH Ha). reflexivity.
Qed.

Lemma join_cons2 sep x y rest :
  join sep (x :: y :: rest) = x ++ sep ++ join sep (y :: rest).
Proof.
  reflexivity.
Qed.

(** [",".join] followed by [split(",")] gives the parts back when there is
    at least one part and none holds a comma. *)
Lemma split_join parts :
  parts <> [] -> forallb (fun p => negb (contains COMMA p)) parts = true ->
  split COMMA (join "," parts) = parts.
Proof.
  induction parts as [|x [|y rest] IH]; intros Hne H.
  - contradiction.
  - simpl in *. apply andb_true_iff in H as [Hx _]. apply negb_true_iff in Hx.
    now apply split_no_sep.
  - rewrite join_cons2. cbn [forallb] in H. apply andb_true_iff in H as [Hx H].
    apply negb_true_iff in Hx.
    change (x ++ "," ++ join "," (y :: rest)) with (x ++ String COMMA (join "," (y :: rest))).
    rewrite (split_app_sep _ _ _ Hx). f_equal. apply IH; [discriminate|exact H].
Qed.

Lemma app_NL l t : (l ++ NL) ++ t = l ++ String LF t.
Proof.
  now rewrite append_assoc.
Qed.

Lemma concat_cons x xs : String.concat EmptyString (x :: xs) = x ++ String.concat EmptyString xs.
Proof.
  destruct xs; simpl; [now rewrite append_nil_r|reflexivity].
Qed.

(** A text made of newline-terminated lines splits into those lines and a
    final empty piece. *)
Lemma split_lines ls :
  forallb (fun l => negb (contains LF l)) ls = true ->
  split LF (String.concat EmptyString (map (fun l => l ++ NL) ls)) = (ls ++ [EmptyString])%list.
Proof.
  induction ls as [|l ls IH]; intros H; [reflexivity|].
  cbn [map forallb] in *. apply andb_true_iff in H as [Hl H]. apply negb_true_iff in Hl.
  rewrite concat_cons, app_NL, (split_app_sep _ _ _ Hl), (IH H). reflexivity.
Qed.

Lemma contains_concat c ls :
  contains c (String.concat EmptyString ls) = existsb (contains c) ls.
Proof.
  induction ls as [|l ls IH]; [reflexivity|].
  rewrite concat_cons, contains_app, IH. reflexivity.
Qed.

Lemma contains_join c parts :
  contains c "," = false ->
  contains c (join "," parts) = existsb (contains c) parts.
Proof.
  intros Hc. induction parts as [|x [|y rest] IH].
  - reflexivity.
  - simpl. now rewrite orb_false_r.
  - rewrite join_cons2, !contains_app, Hc, IH. reflexivity.
Qed.

(* ================================================================== *)
(** * Properties of [save_dataset] *)
(* ================================================================== *)

Lemma save_dataset_run filename dataset w :
  fst (save_dataset filename dataset w) = Return tt
  /\ files (snd (save_dataset filename dataset w)) filename = Some (saved_text dataset)
  /\ (forall other, other <> filename ->
        files (snd (save_dataset filename dataset w)) other = files w other).
Proof.
  unfold save_dataset, to_csv, saved_text.
  generalize (join "," (map str_dtype (dtypes dataset)) ++ NL) as t1.
  generalize (to_csv_text dataset) as t2. intros t2 t1.
  unfold with_open, open_, io_bind, f_write, set_file.
  repeat (simpl; rewrite ?Nat.eqb_refl, ?String.eqb_refl).
  split; [reflexivity|]. split; [reflexivity|].
  intros other Hne. apply String.eqb_neq in Hne. now rewrite Hne.
Qed.

Lemma saved_text_lines df :
  saved_text df
  = String.concat EmptyString
      (map (fun l => l ++ NL)
           (join "," (map str_dtype (dtypes df)) :: map csv_row (columns_of df :: rows df))).
Proof.
  unfold saved_text, to_csv_text, rows. cbn [map]. rewrite !concat_cons.
  now rewrite map_map.
Qed.

Lemma transpose_length n lists : length (transpose n lists) = n.
Proof.
  revert lists. induction n as [|n IH]; intros lists; simpl; [reflexivity|now rewrite IH].
Qed.

Lemma transpose_row_length n lists :
  Forall (fun r => length r = length lists) (transpose n lists).
Proof.
  revert lists. induction n as [|n IH]; intros lists; simpl; constructor.
  - apply length_map.
  - rewrite <- (length_map (@tl string) lists). apply IH.
Qed.

(** Every field of a transposed table satisfies what the empty text and
    all the fields of the table satisfy. *)
Lemma transpose_fields (P : string -> bool) n lists :
  P EmptyString = true -> forallb (forallb P) lists = true ->
  forallb (forallb P) (transpose n lists) = true.
Proof.
  intros H0. revert lists. induction n as [|n IH]; intros lists H; simpl; [reflexivity|].
  apply andb_true_iff. split.
  - clear IH. induction lists as [|l lists IHl]; simpl; [reflexivity|].
    simpl in H. apply andb_true_iff in H as [Hl H].
    rewrite (IHl H), andb_true_r. destruct l; simpl in *; [exact H0|].
    now apply andb_true_iff in Hl as [Hx _].
  - apply IH. clear IH. induction lists as [|l lists IHl]; simpl; [reflexivity|].
    simpl in H. apply andb_true_iff in H as [Hl H].
    rewrite (IHl H), andb_true_r. destruct l; simpl in *; [reflexivity|].
    now apply andb_true_iff in Hl as [_ Hl].
Qed.

Lemma contains_all_chars c p s :
  p c = false -> all_chars p s = true -> contains c s = false.
Proof.
  intros Hc. induction s as [|d s IH]; simpl; intros H; [reflexivity|].
  apply andb_true_iff in H as [Hd Hs]. rewrite (IH Hs), orb_false_r.
  destruct (Ascii.eqb_spec d c); [congruence|reflexivity].
Qed.

Lemma string_of_uint_digits d : all_chars digit (NilEmpty.string_of_uint d) = true.
Proof.
  induction d; simpl; auto.
Qed.

Lemma all_chars_weaken (p q : ascii -> bool) s :
  (forall c, p c = true -> q c = true) -> all_chars p s = true -> all_chars q s = true.
Proof.
  intros Hpq. induction s as [|c s IH]; simpl; [reflexivity|].
  intros H. apply andb_true_iff in H as [Hc Hs]. now rewrite (Hpq c Hc), IH.
Qed.

Lemma digit_is_digit_or_minus c : digit c = true -> digit_or_minus c = true.
Proof.
  unfold digit, digit_or_minus. intros ->. reflexivity.
Qed.

(** The text of an integer: digits, after a minus sign when negative. *)
Lemma str_int_cases z :
  (z = 0 /\ str_int z = "0")
  \/ (exists p, z = Z.pos p /\ str_int z = NilEmpty.string_of_uint (Pos.to_uint p))
  \/ (exists p, z = Z.neg p
        /\ str_int z = String "-" (NilEmpty.string_of_uint (Pos.to_uint p))).
Proof.
  unfold str_int. destruct z as [|p|p]; simpl.
  - left. auto.
  - right; left. exists p. split; [reflexivity|].
    unfold NilZero.string_of_uint.
    pose proof (DecimalPos.Unsigned.to_uint_nonnil p).
    destruct (Pos.to_uint p); [contradiction|reflexivity..].
  - right; right. exists p. split; [reflexivity|]. f_equal.
    unfold NilZero.string_of_uint.
    pose proof (DecimalPos.Unsigned.to_uint_nonnil p).
    destruct (Pos.to_uint p); [contradiction|reflexivity..].
Qed.

Lemma str_int_chars z : all_chars digit_or_minus (str_int z) = true.
Proof.
  destruct (str_int_cases z) as [[_ ->]|[(p & _ & ->)|(p & _ & ->)]].
  - reflexivity.
  - eapply all_chars_weaken; [apply digit_is_digit_or_minus|apply string_of_uint_digits].
  - simpl. eapply all_chars_weaken; [apply digit_is_digit_or_minus|apply string_of_uint_digits].
Qed.

Lemma str_bool_chars b : all_chars (fun c => negb (isspace c || Ascii.eqb c COMMA
                                                  || Ascii.eqb c QUOTE)) (str_bool b) = true.
Proof.
  destruct b; reflexivity.
Qed.

Lemma str_int_no c z : digit_or_minus c = false -> contains c (str_int z) = false.
Proof.
  intros Hc. eapply contains_all_chars; [exact Hc|apply str_int_chars].
Qed.

Lemma str_bool_no c b :
  (isspace c || Ascii.eqb c COMMA || Ascii.eqb c QUOTE) = true ->
  contains c (str_bool b) = false.
Proof.
  intros Hc. eapply contains_all_chars; [|apply str_bool_chars]. simpl. now rewrite Hc.
Qed.

Lemma contains_double_quotes c s :
  Ascii.eqb QUOTE c = false -> contains c (double_quotes s) = contains c s.
Proof.
  intros Hc. induction s as [|d s IH]; [reflexivity|].
  cbn [double_quotes contains].
  destruct (Ascii.eqb_spec d QUOTE) as [->|Hd]; cbn [contains]; rewrite ?Hc, IH; reflexivity.
Qed.

Lemma contains_csv_field c s :
  Ascii.eqb QUOTE c = false -> contains c (csv_field s) = contains c s.
Proof.
  intros Hc. unfold csv_field. destruct (needs_quote s); [|reflexivity].
  cbn [contains]. rewrite Hc, contains_app, contains_double_quotes by exact Hc.
  cbn [contains orb]. now rewrite Hc, !orb_false_r.
Qed.

(** A record holds a line feed only when one of its fields does. *)
Lemma contains_LF_csv_row r :
  forallb no_line_break r = true -> contains LF (csv_row r) = false.
Proof.
  intros H.
  assert (G : contains LF (join "," (map csv_field r)) = false).
  { rewrite contains_join by reflexivity.
    induction r as [|x r IH]; simpl in *; [reflexivity|].
    apply andb_true_iff in H as [Hx H]. rewrite (IH H), orb_false_r.
    rewrite contains_csv_field by reflexivity.
    unfold no_line_break in Hx. apply andb_true_iff in Hx as [Hx _].
    now apply negb_true_iff in Hx. }
  unfold csv_row. destruct r as [|[|c x] [|y r]]; solve [exact G | reflexivity].
Qed.

Lemma rows_no_line_break df :
  line_break_free df = true -> forallb (forallb no_line_break) (rows df) = true.
Proof.
  unfold line_break_free, rows. intros H. apply andb_true_iff in H as [_ H].
  apply transpose_fields; [reflexivity|].
  induction df as [|c df IH]; simpl in *; [reflexivity|].
  apply andb_true_iff in H as [Hc H]. rewrite Hc. simpl. now apply IH.
Qed.

(** A character that occurs in no type tag and is not the comma does not
    occur in the line of type tags. *)
Lemma contains_tags c dts :
  contains c "int64,boolobjectfloat64datetime64[ns]category" = false ->
  contains c (join "," (map str_dtype dts)) = false.
Proof.
  intros H. cbn [contains] in H.
  repeat match type of H with (_ || _) = false => apply orb_false_iff in H as [? H] end.
  rewrite contains_join by (cbn [contains]; now rewrite orb_false_r).
  induction dts as [|t dts IH]; [reflexivity|].
  cbn [map existsb]. rewrite IH, orb_false_r.
  destruct t; cbn [str_dtype contains];
    repeat match goal with E : Ascii.eqb _ c = false |- _ => rewrite E; clear E end;
    reflexivity.
Qed.

Lemma records_no_LF rs :
  forallb (forallb no_line_break) rs = true ->
  forallb (fun l => negb (contains LF l)) (map csv_row rs) = true.
Proof.
  induction rs as [|r rs IH]; simpl; intros H; [reflexivity|].
  apply andb_true_iff in H as [Hr H].
  now rewrite (contains_LF_csv_row _ Hr), (IH H).
Qed.


(* ================================================================== *)
(** * The tokenizer *)
(* ================================================================== *)

Lemma option_map_id {A : Type} (o : option A) : option_map (fun x => x) o = o.
Proof.
  now destruct o.
Qed.

Lemma option_map_map {A B C : Type} (f : A -> B) (g : B -> C) (o : option A) :
  option_map g (option_map f o) = option_map (fun x => g (f x)) o.
Proof.
  now destruct o.
Qed.

Lemma option_map_ext {A B : Type} (f g : A -> B) (o : option A) :
  (forall x, f x = g x) -> option_map f o = option_map g o.
Proof.
  intros H. destruct o; simpl; [now rewrite H|reflexivity].
Qed.

Lemma split_nonempty sep s : split sep s <> [].
Proof.
  destruct s as [|c s]; simpl; [discriminate|].
  destruct (Ascii.eqb c sep); [discriminate|]. destruct (split sep s); discriminate.
Qed.

(** ** On a text without quotes *)

(** The four states that a quote-free text can reach, against the lines of
    the text. *)
Lemma scan_quote_free s :
  contains QUOTE s = false ->
  forall l0 ls,
    split LF s = l0 :: ls ->
    scan START_RECORD s = Some ([], lines_records (l0 :: ls))
    /\ scan WHITESPACE_LINE s
       = Some (if blank l0 then [] else split COMMA l0, lines_records ls)
    /\ scan START_FIELD s = Some (split COMMA l0, lines_records ls)
    /\ scan IN_FIELD s = Some (split COMMA l0, lines_records ls).
Proof.
  induction s as [|c s IH]; intros Hq l0 ls Hs.
  - inversion Hs; subst. repeat split; reflexivity.
  - cbn [contains] in Hq. apply orb_false_iff in Hq as [Hc Hq].
    cbn [split] in Hs.
    destruct (split LF s) as [|m0 ms] eqn:Es; [now apply split_nonempty in Es|].
    destruct (IH Hq m0 ms eq_refl) as (I1 & I2 & I3 & I4). clear IH.
    cbn [scan]. unfold field_char. rewrite Hc, I1, I2, I3, I4.
    destruct (Ascii.eqb_spec c LF) as [->|Hlf].
    + inversion Hs; subst. cbn. repeat split; reflexivity.
    + inversion Hs; subst. clear Hs.
      apply Ascii.eqb_neq in Hlf.
      destruct (split COMMA m0) as [|h t] eqn:Em; [now apply split_nonempty in Em|].
      unfold lines_records. cbn [filter blank map split]. rewrite Em.
      destruct (Ascii.eqb c COMMA) eqn:Hcomma.
      * apply Ascii.eqb_eq in Hcomma. subst c. cbn. rewrite ?Em.
        repeat split; reflexivity.
      * destruct (Ascii.eqb c " " || Ascii.eqb c "009") eqn:Ews; cbn [andb negb option_map].
        -- destruct (blank m0); cbn; rewrite ?Hcomma, ?Em; repeat split; reflexivity.
        -- cbn. rewrite ?Hcomma, ?Em. repeat split; reflexivity.
Qed.

(** For a text without quote characters the tokenizer gives the non-blank
    lines, split at the delimiter. *)
Lemma records_quote_free text :
  contains QUOTE text = false -> records text = Some (tokenize text).
Proof.
  intros Hq. unfold records, tokenize.
  destruct (split LF text) as [|l0 ls] eqn:Es; [now apply split_nonempty in Es|].
  destruct (scan_quote_free text Hq l0 ls Es) as (H & _). now rewrite H.
Qed.

(** ** On the records that [csv.writer] writes *)

Lemma push_str_field s f fs recs : push_str s (f :: fs, recs) = ((s ++ f) :: fs, recs).
Proof.
  induction s as [|c s IH]; simpl; [reflexivity|]. now rewrite IH.
Qed.

(** The content of a quoted field, up to its closing quote. *)
Lemma scan_quoted_content s rest :
  scan IN_QUOTED_FIELD (double_quotes s ++ String QUOTE rest)
  = option_map (push_str s) (scan QUOTE_IN_QUOTED_FIELD rest).
Proof.
  induction s as [|c s IH]; cbn [double_quotes append push_str].
  - cbn [scan]. change (Ascii.eqb QUOTE QUOTE) with true. cbv iota.
    symmetry. apply option_map_id.
  - destruct (Ascii.eqb c QUOTE) eqn:Ec.
    + apply Ascii.eqb_eq in Ec. subst c. cbn [append scan].
      change (Ascii.eqb QUOTE QUOTE) with true. cbv iota.
      now rewrite IH, option_map_map.
    + cbn [append scan]. rewrite Ec. now rewrite IH, option_map_map.
Qed.

(** The content of an unquoted field. *)
Lemma scan_unquoted_content s rest :
  needs_quote s = false ->
  scan IN_FIELD (s ++ rest) = option_map (push_str s) (scan IN_FIELD rest).
Proof.
  unfold needs_quote. induction s as [|c s IH]; cbn [append push_str contains]; intros H.
  - symmetry. apply option_map_id.
  - apply orb_false_iff in H as [H Hlf]. apply orb_false_iff in H as [Hcomma Hquote].
    apply orb_false_iff in Hlf as [Hlf1 Hlf2].
    apply orb_false_iff in Hcomma as [Hc1 Hc2]. apply orb_false_iff in Hquote as [Hq1 Hq2].
    cbn [scan]. unfold field_char. rewrite Hc1, Hlf1, Hq1.
    rewrite IH by now rewrite Hc2, Hq2, Hlf2.
    now rewrite option_map_map.
Qed.

Lemma scan_after_quote rest :
  delimited rest = true -> scan QUOTE_IN_QUOTED_FIELD rest = scan IN_FIELD rest.
Proof.
  destruct rest as [|c r]; [reflexivity|]. cbn [delimited scan]. unfold field_char.
  intros H. apply orb_true_iff in H as [H|H]; apply Ascii.eqb_eq in H; subst c; reflexivity.
Qed.

Lemma scan_start_unquoted x :
  match x with String c _ => Ascii.eqb c QUOTE = false | EmptyString => True end ->
  scan START_FIELD x = scan IN_FIELD x.
Proof.
  destruct x as [|c r]; [reflexivity|]. cbn [scan]. now intros ->.
Qed.

(** A field as it is written, followed by what ends it. *)
Lemma scan_field s rest :
  delimited rest = true ->
  scan START_FIELD (csv_field s ++ rest) = option_map (push_str s) (scan IN_FIELD rest).
Proof.
  intros Hd. unfold csv_field. destruct (needs_quote s) eqn:E.
  - cbn [append scan]. change (Ascii.eqb QUOTE QUOTE) with true. cbv iota.
    rewrite append_assoc. cbn [append].
    now rewrite scan_quoted_content, (scan_after_quote _ Hd).
  - rewrite scan_start_unquoted; [now apply scan_unquoted_content|].
    destruct s as [|c s]; cbn [append].
    + destruct rest as [|d r]; [exact I|]. cbn [delimited] in Hd.
      apply orb_true_iff in Hd as [Hd|Hd]; apply Ascii.eqb_eq in Hd; subst d; reflexivity.
    + unfold needs_quote in E. cbn [contains] in E.
      apply orb_false_iff in E as [E _]. apply orb_false_iff in E as [_ E].
      now apply orb_false_iff in E as [E _].
Qed.

Lemma scan_field_comma x :
  scan IN_FIELD (String COMMA x) = option_map end_field (scan START_FIELD x).
Proof.
  reflexivity.
Qed.

Lemma scan_field_LF x :
  scan IN_FIELD (String LF x) = option_map end_line (scan START_RECORD x).
Proof.
  reflexivity.
Qed.

(** The fields of a record, followed by the line feed. *)
Lemma scan_fields fs text :
  fs <> [] ->
  scan START_FIELD (join "," (map csv_field fs) ++ String LF text)
  = option_map (fun r => (fs, snd r)) (scan START_RECORD text).
Proof.
  induction fs as [|f [|g fs] IH]; intros Hne.
  - contradiction.
  - cbn [map join]. rewrite scan_field by reflexivity. rewrite scan_field_LF.
    destruct (scan START_RECORD text) as [[cur recs]|]; [|reflexivity].
    unfold end_line. cbn [option_map snd]. now rewrite push_str_field, append_nil_r.
  - cbn [map] in *. rewrite join_cons2, append_assoc. cbn [append].
    rewrite scan_field by reflexivity. rewrite scan_field_comma, IH by discriminate.
    destruct (scan START_RECORD text) as [[cur recs]|]; [|reflexivity].
    unfold end_field. cbn [option_map snd fst]. now rewrite push_str_field, append_nil_r.
Qed.

Lemma scan_row fs text :
  fs <> [] ->
  scan START_FIELD (csv_row fs ++ String LF text)
  = option_map (fun r => (fs, snd r)) (scan START_RECORD text).
Proof.
  intros Hne. unfold csv_row.
  destruct fs as [|[|c x] [|y r]]; try now apply scan_fields.
  cbn. now destruct (scan START_RECORD text) as [[cur recs]|].
Qed.

(** A line that starts with spaces and tabs and goes on with another
    character is scanned as a record from its start. *)
Lemma scan_whitespace_line a d y :
  blank a = true ->
  (Ascii.eqb d " " || Ascii.eqb d "009") = false -> Ascii.eqb d LF = false ->
  scan WHITESPACE_LINE (a ++ String d y) = scan IN_FIELD (a ++ String d y).
Proof.
  intros Ha Hd Hlf. induction a as [|c a IH]; cbn [append scan].
  - now rewrite Hd, Hlf.
  - cbn [blank] in Ha. apply andb_true_iff in Ha as [Hc Ha].
    rewrite Hc, (IH Ha). unfold field_char.
    apply orb_true_iff in Hc as [Hc|Hc]; apply Ascii.eqb_eq in Hc; subst c; reflexivity.
Qed.

Lemma scan_record_start a d y :
  blank a = true ->
  (Ascii.eqb d " " || Ascii.eqb d "009") = false -> Ascii.eqb d LF = false ->
  scan START_RECORD (a ++ String d y)
  = option_map close_record (scan START_FIELD (a ++ String d y)).
Proof.
  intros Ha Hd Hlf. destruct a as [|c a]; cbn [append scan].
  - rewrite Hd, Hlf. now destruct (Ascii.eqb d QUOTE).
  - cbn [blank] in Ha. apply andb_true_iff in Ha as [Hc Ha].
    rewrite Hc, (scan_whitespace_line _ _ _ Ha Hd Hlf). unfold field_char.
    apply orb_true_iff in Hc as [Hc|Hc]; apply Ascii.eqb_eq in Hc; subst c; cbn;
      now rewrite option_map_map.
Qed.

(** A text that is not blank: a run of spaces and tabs, then another
    character. *)
Lemma blank_false_split s :
  blank s = false ->
  exists a d y,
    s = a ++ String d y /\ blank a = true /\ (Ascii.eqb d " " || Ascii.eqb d "009") = false.
Proof.
  induction s as [|c s IH]; cbn [blank]; [discriminate|]. intros H.
  destruct (Ascii.eqb c " " || Ascii.eqb c "009") eqn:Ec.
  - cbn [andb] in H. destruct (IH H) as (a & d & y & -> & Ha & Hd).
    exists (String c a), d, y. cbn [append blank]. now rewrite Ec, Ha.
  - exists EmptyString, c, s. auto.
Qed.

(** A record as it is written, at the start of a line. *)
Lemma scan_record fs text :
  blank (csv_row fs) = false -> contains LF (csv_row fs) = false ->
  scan START_RECORD (csv_row fs ++ String LF text)
  = option_map (fun r => ([], fs :: snd r)) (scan START_RECORD text).
Proof.
  intros Hb Hlf.
  assert (Hne : fs <> []) by (intros ->; discriminate Hb).
  pose proof (scan_row fs text Hne) as Hrow.
  destruct (blank_false_split _ Hb) as (a & d & y & E & Ha & Hd).
  rewrite E in Hlf, Hrow |- *. rewrite contains_app in Hlf. cbn [contains] in Hlf.
  apply orb_false_iff in Hlf as [_ Hlf]. apply orb_false_iff in Hlf as [Hlf _].
  rewrite append_assoc in Hrow |- *. cbn [append] in Hrow |- *.
  rewrite (scan_record_start _ _ _ Ha Hd Hlf), Hrow, option_map_map.
  apply option_map_ext. intros [cur recs]. unfold close_record. cbn.
  destruct fs; [contradiction|reflexivity].
Qed.

(** Reading back the records that [csv.writer] wrote gives the rows, when
    no record is a line of spaces and tabs and none holds a line feed. *)
Lemma records_written rs :
  forallb (fun r => negb (blank (csv_row r)) && negb (contains LF (csv_row r))) rs = true ->
  records (String.concat EmptyString (map (fun r => csv_row r ++ NL) rs)) = Some rs.
Proof.
  intros H. unfold records.
  assert (G : scan START_RECORD (String.concat EmptyString (map (fun r => csv_row r ++ NL) rs))
              = Some ([], rs)); [|now rewrite G].
  induction rs as [|r rs IH]; [reflexivity|].
  cbn [map forallb] in *. apply andb_true_iff in H as [Hr H].
  apply andb_true_iff in Hr as [Hb Hlf]. apply negb_true_iff in Hb, Hlf.
  rewrite concat_cons, app_NL, (scan_record _ _ Hb Hlf), (IH H). reflexivity.
Qed.

(* ================================================================== *)
(** * The round trip *)
(* ================================================================== *)

Lemma plain_spec s :
  plain s = true ->
  contains COMMA s = false /\ contains QUOTE s = false
  /\ contains LF s = false /\ contains CR s = false.
Proof.
  unfold plain. rewrite !andb_true_iff, !negb_true_iff. tauto.
Qed.

Lemma clean_spec s :
  clean s = true ->
  contains COMMA s = false /\ contains LF s = false /\ contains CR s = false.
Proof.
  unfold clean. rewrite !andb_true_iff, !negb_true_iff. tauto.
Qed.

Lemma plain_clean s : plain s = true -> clean s = true.
Proof.
  unfold plain, clean. rewrite !andb_true_iff. tauto.
Qed.

Lemma csv_field_plain s : plain s = true -> csv_field s = s.
Proof.
  intros H. apply plain_spec in H as (H1 & H2 & H3 & H4).
  unfold csv_field, needs_quote. now rewrite H1, H2, H3.
Qed.

Lemma map_csv_field_plain r : forallb plain r = true -> map csv_field r = r.
Proof.
  induction r as [|x r IH]; simpl; intros H; [reflexivity|].
  apply andb_true_iff in H as [Hx H]. now rewrite (csv_field_plain _ Hx), (IH H).
Qed.

Lemma csv_row_plain r :
  forallb plain r = true -> blank (join "," r) = false -> csv_row r = join "," r.
Proof.
  intros H Hb. unfold csv_row.
  destruct r as [|[|c x] [|y r]]; try now rewrite map_csv_field_plain.
  discriminate Hb.
Qed.

Lemma plain_str_int z : plain (str_int z) = true.
Proof.
  unfold plain. now rewrite !str_int_no.
Qed.

Lemma plain_str_bool b : plain (str_bool b) = true.
Proof.
  destruct b; reflexivity.
Qed.

Lemma forallb_map_eq {A B : Type} (f : A -> B) (p : B -> bool) l :
  forallb p (map f l) = forallb (fun x => p (f x)) l.
Proof.
  induction l as [|x l IH]; simpl; [reflexivity|now rewrite IH].
Qed.

Lemma forallb_impl {A : Type} (p q : A -> bool) l :
  (forall x, p x = true -> q x = true) -> forallb p l = true -> forallb q l = true.
Proof.
  intros Hpq. induction l as [|x l IH]; simpl; [reflexivity|].
  intros H. apply andb_true_iff in H as [Hx H]. now rewrite (Hpq x Hx), (IH H).
Qed.

Lemma forallb_both {A : Type} (p q : A -> bool) l :
  forallb p l = true -> forallb q l = true -> forallb (fun x => p x && q x) l = true.
Proof.
  induction l as [|x l IH]; simpl; [reflexivity|]. intros Hp Hq.
  apply andb_true_iff in Hp as [Hx Hp]. apply andb_true_iff in Hq as [Hy Hq].
  now rewrite Hx, Hy, IH.
Qed.

Lemma empty_nil {A : Type} (l : list A) : empty l = true -> l = [].
Proof.
  now destruct l.
Qed.

(** The cell texts of a column that is ready are clean. *)
Lemma series_text_clean s : cells_ready s = true -> forallb clean (series_text s) = true.
Proof.
  destruct s as [l|l|l|l|l|l]; cbn [cells_ready series_text]; intros H.
  - clear H. induction l as [|z l IH]; simpl; [reflexivity|].
    now rewrite (plain_clean _ (plain_str_int z)), IH.
  - clear H. induction l as [|b l IH]; simpl; [reflexivity|].
    now rewrite (plain_clean _ (plain_str_bool b)), IH.
  - induction l as [|x l IH]; simpl in *; [reflexivity|].
    apply andb_true_iff in H as [Hx H]. rewrite (IH H), andb_true_r. now destruct x.
  - induction l as [|x l IH]; simpl in *; [reflexivity|].
    apply andb_true_iff in H as [Hx H]. rewrite (IH H), andb_true_r.
    destruct x as [v|]; [|reflexivity]. now apply andb_true_iff in Hx as [Hx _].
  - now rewrite (empty_nil _ H).
  - induction l as [|x l IH]; simpl in *; [reflexivity|].
    apply andb_true_iff in H as [Hx H]. rewrite (IH H), andb_true_r. now destruct x.
Qed.

Lemma rows_clean df :
  forallb (fun c => cells_ready (values c)) df = true ->
  forallb (forallb clean) (rows df) = true.
Proof.
  intros H. unfold rows. apply transpose_fields; [reflexivity|].
  induction df as [|c df IH]; simpl in *; [reflexivity|].
  apply andb_true_iff in H as [Hc H].
  now rewrite (series_text_clean _ Hc), (IH H).
Qed.

(** A record holds a character other than the quote and the comma only
    when one of its fields does. *)
Lemma contains_csv_row c r :
  Ascii.eqb QUOTE c = false -> Ascii.eqb COMMA c = false ->
  forallb (fun x => negb (contains c x)) r = true -> contains c (csv_row r) = false.
Proof.
  intros Hq Hc H. unfold COMMA in Hc.
  assert (G : contains c (join "," (map csv_field r)) = false).
  { rewrite contains_join by (cbn [contains]; now rewrite Hc).
    induction r as [|x r IH]; simpl in *; [reflexivity|].
    apply andb_true_iff in H as [Hx H]. rewrite (IH H), orb_false_r.
    rewrite contains_csv_field by exact Hq. now apply negb_true_iff in Hx. }
  unfold csv_row. destruct r as [|[|d x] [|y r]]; try exact G.
  cbn [contains]. now rewrite Hq.
Qed.

Lemma clean_row r :
  forallb clean r = true ->
  contains LF (csv_row r) = false /\ contains CR (csv_row r) = false.
Proof.
  intros H. split; apply contains_csv_row; try reflexivity;
    (eapply forallb_impl; [|exact H]); intros x Hx;
    apply clean_spec in Hx as (_ & H1 & H2); now rewrite ?H1, ?H2.
Qed.

Lemma blank_no_comma s : contains COMMA s = true -> blank s = false.
Proof.
  induction s as [|c s IH]; simpl; [discriminate|].
  intros H. apply orb_true_iff in H as [H|H].
  - apply Ascii.eqb_eq in H. subst c. reflexivity.
  - rewrite (IH H). apply andb_false_r.
Qed.

Lemma join_two_contains_comma x y r : contains COMMA (join "," (x :: y :: r)) = true.
Proof.
  rewrite join_cons2, contains_app. cbn [append contains].
  rewrite Ascii.eqb_refl. cbn [orb]. apply orb_true_r.
Qed.

(** A record of two fields or more is not a blank line. *)
Lemma blank_csv_row_wide x y r : blank (csv_row (x :: y :: r)) = false.
Proof.
  apply blank_no_comma. unfold csv_row.
  destruct x; cbn [map]; apply join_two_contains_comma.
Qed.

(** A record of one field is a blank line only when the field is made of
    spaces and tabs. *)
Lemma blank_csv_row_single t :
  negb (blank t) || String.eqb t EmptyString = true -> blank (csv_row [t]) = false.
Proof.
  destruct t as [|c t]; [reflexivity|]. cbn [String.eqb]. rewrite orb_false_r.
  intros H. apply negb_true_iff in H. cbn [csv_row map join]. unfold csv_field.
  destruct (needs_quote (String c t)); [reflexivity|exact H].
Qed.

(** A table of one column has one field per row. *)
Lemma transpose_single l : transpose (length l) [l] = map (fun x => [x]) l.
Proof.
  induction l as [|x l IH]; simpl; [reflexivity|now rewrite IH].
Qed.

Lemma transpose_wide_readable n ls :
  (2 <= length ls)%nat ->
  forallb (fun r => negb (blank (csv_row r))) (transpose n ls) = true.
Proof.
  revert ls. induction n as [|n IH]; intros ls Hlen; simpl; [reflexivity|].
  rewrite IH by now rewrite length_map.
  destruct ls as [|a [|b ls]]; simpl in Hlen; try lia.
  cbn [map]. now rewrite blank_csv_row_wide.
Qed.

Lemma series_len_text s : series_len s = length (series_text s).
Proof.
  destruct s; simpl; now rewrite length_map.
Qed.

(** No row of a frame that is ready is written as a blank line. *)
Lemma rows_readable df :
  lone_column_readable df = true ->
  forallb (fun r => negb (blank (csv_row r))) (rows df) = true.
Proof.
  intros Hv. destruct df as [|c [|c' df]].
  - reflexivity.
  - unfold rows, nrows. cbn [map].
    rewrite series_len_text, transpose_single. cbn [lone_column_readable] in Hv.
    revert Hv. generalize (series_text (values c)) as l.
    induction l as [|x l IH]; cbn [forallb map]; intros Hv; [reflexivity|].
    apply andb_true_iff in Hv as [Hx Hl].
    now rewrite (blank_csv_row_single _ Hx), (IH Hl).
  - unfold rows. apply transpose_wide_readable. simpl. lia.
Qed.

Lemma plain_no_special c s :
  c = QUOTE \/ c = LF \/ c = CR \/ c = COMMA -> plain s = true -> contains c s = false.
Proof.
  intros Hc H. apply plain_spec in H as (H1 & H2 & H3 & H4).
  destruct Hc as [->|[->|[->| ->]]]; assumption.
Qed.

Lemma plain_row_no_special c r :
  c = QUOTE \/ c = LF \/ c = CR -> forallb plain r = true ->
  contains c (join "," r) = false.
Proof.
  intros Hc H.
  rewrite contains_join by (destruct Hc as [->|[->| ->]]; reflexivity).
  induction r as [|x r IH]; simpl in *; [reflexivity|].
  apply andb_true_iff in H as [Hx H]. rewrite (IH H), orb_false_r.
  apply plain_no_special; [tauto|exact Hx].
Qed.

(** The records of clean rows hold no carriage return. *)
Lemma records_no_CR rs :
  forallb (forallb clean) rs = true ->
  contains CR (String.concat EmptyString (map (fun r => csv_row r ++ NL) rs)) = false.
Proof.
  intros H. rewrite contains_concat.
  induction rs as [|r rs IH]; [reflexivity|].
  cbn [map existsb forallb] in *. apply andb_true_iff in H as [Hr H].
  destruct (clean_row _ Hr) as [_ Hcr].
  now rewrite (IH H), orb_false_r, contains_app, Hcr.
Qed.

(** ** The header lines *)

Lemma rstrip_join parts :
  parts <> [] ->
  last parts EmptyString <> EmptyString ->
  rstrip (last parts EmptyString) = last parts EmptyString ->
  join "," parts <> EmptyString /\ rstrip (join "," parts) = join "," parts.
Proof.
  induction parts as [|x [|y rest] IH]; intros Hne Hlast Hfix.
  - contradiction.
  - simpl in *. auto.
  - rewrite join_cons2.
    destruct IH as [IH1 IH2]; [discriminate|exact Hlast|exact Hfix|].
    split.
    + destruct x; simpl; discriminate.
    + rewrite <- append_assoc. now apply rstrip_app_fixed.
Qed.

(** What [load_dataset] does with a text of two header lines and a body. *)
Lemma load_text_two_lines l1 l2 body :
  contains CR (l1 ++ String LF (l2 ++ String LF body)) = false ->
  contains LF l1 = false -> contains LF l2 = false ->
  load_text (l1 ++ String LF (l2 ++ String LF body))
  = read_csv_text body
      (dict_of (zip (split COMMA (rstrip l2)) (split COMMA (rstrip l1))))
      (split COMMA (rstrip l2)).
Proof.
  intros Hcr H1 H2. unfold load_text. rewrite (universal_newlines_id _ Hcr).
  destruct (l1 ++ String LF (l2 ++ String LF body)) as [|c t] eqn:E.
  { destruct l1; discriminate E. }
  rewrite <- E, (take_line_app _ _ H1).
  destruct (l2 ++ String LF body) as [|c' t'] eqn:E'.
  { destruct l2; discriminate E'. }
  rewrite <- E', (take_line_app _ _ H2), !rstrip_app_NL. reflexivity.
Qed.

Lemma dict_get_set_same k v d : dict_get k (dict_set k v d) = Some v.
Proof.
  induction d as [|[k' v'] d IH]; simpl.
  - now rewrite String.eqb_refl.
  - destruct (String.eqb k' k) eqn:E; simpl; rewrite E; [reflexivity|exact IH].
Qed.

Lemma dict_get_set_other k k' v d :
  String.eqb k' k = false -> dict_get k (dict_set k' v d) = dict_get k d.
Proof.
  intros Hne. induction d as [|[k0 v0] d IH]; simpl.
  - now rewrite Hne.
  - destruct (String.eqb k0 k') eqn:E; simpl.
    + apply String.eqb_eq in E. subst k0. now rewrite Hne.
    + now rewrite IH.
Qed.

Lemma dict_get_fold_absent k pairs d :
  existsb (String.eqb k) (map fst pairs) = false ->
  dict_get k (fold_left dict_step pairs d) = dict_get k d.
Proof.
  revert d. induction pairs as [|[k' v'] pairs IH]; intros d H; simpl in *; [reflexivity|].
  apply orb_false_iff in H as [Hk H]. rewrite (IH _ H). unfold dict_step. simpl.
  apply dict_get_set_other. now rewrite String.eqb_sym.
Qed.

Lemma dict_get_fold_present k v pairs d :
  has_duplicates (map fst pairs) = false -> In (k, v) pairs ->
  dict_get k (fold_left dict_step pairs d) = Some v.
Proof.
  revert d. induction pairs as [|[k' v'] pairs IH]; intros d Hd Hin; simpl in *; [contradiction|].
  apply orb_false_iff in Hd as [Hk Hd]. destruct Hin as [E|Hin].
  - inversion E; subst. rewrite (dict_get_fold_absent _ _ _ Hk).
    unfold dict_step. simpl. apply dict_get_set_same.
  - now apply IH.
Qed.

Lemma dtype_of_tag_str t : dtype_of_tag (str_dtype t) = Some t.
Proof.
  destruct t; reflexivity.
Qed.

Lemma declared_dtypes_ok d names ts :
  length names = length ts ->
  (forall n t, In (n, t) (combine names ts) -> dict_get n d = Some (str_dtype t)) ->
  declared_dtypes d names = Some ts.
Proof.
  revert ts. induction names as [|n names IH]; intros [|t ts] Hlen H; simpl in *;
    try discriminate; [reflexivity|].
  rewrite (H n t (or_introl eq_refl)), dtype_of_tag_str, (IH ts); auto.
Qed.

Lemma map_fst_combine {A B : Type} (a : list A) (b : list B) :
  length a = length b -> map fst (combine a b) = a.
Proof.
  revert b. induction a as [|x a IH]; intros [|y b] H; simpl in *; try discriminate;
    [reflexivity|]. f_equal. apply IH. now injection H.
Qed.

Lemma in_combine_map {A B C : Type} (f : B -> C) (a : list A) (b : list B) x y :
  In (x, y) (combine a b) -> In (x, f y) (combine a (map f b)).
Proof.
  revert b. induction a as [|x' a IH]; intros [|y' b] H; simpl in *; try contradiction.
  destruct H as [E|H]; [left; now inversion E|right; now apply IH].
Qed.

(** The dictionary zipped from the two header lines declares, for every
    column, the dtype written for it. *)
Lemma declared_dtypes_zip names ts :
  length names = length ts -> has_duplicates names = false ->
  declared_dtypes (dict_of (zip names (map str_dtype ts))) names = Some ts.
Proof.
  intros Hlen Hd. apply declared_dtypes_ok; [exact Hlen|].
  intros n t Hin. unfold dict_of, zip.
  apply (dict_get_fold_present n (str_dtype t) _ []).
  - rewrite map_fst_combine; [exact Hd|now rewrite length_map].
  - now apply in_combine_map.
Qed.

Lemma row_arity_fits n first rs :
  Forall (fun r => length r = n) rs -> row_arity n first rs = Fits.
Proof.
  intros H. revert first. induction H as [|r rs Hr _ IH]; intros first; simpl; [reflexivity|].
  rewrite Hr, Nat.eqb_refl. apply IH.
Qed.

(** ** The table *)

Lemma transpose_tl n c cols :
  map (@tl string) (transpose n (c :: cols)) = transpose n cols.
Proof.
  revert c cols. induction n as [|n IH]; intros c cols; simpl; [reflexivity|].
  f_equal. apply IH.
Qed.

Lemma transpose_hd n c cols :
  length c = n -> map (hd EmptyString) (transpose n (c :: cols)) = c.
Proof.
  revert c cols. induction n as [|n IH]; intros c cols Hlen; simpl.
  - now destruct c.
  - destruct c as [|x c]; [discriminate|]. simpl. f_equal. apply IH. now injection Hlen.
Qed.

(** Turning columns of equal length into rows and the rows back into
    columns gives the columns. *)
Lemma transpose_involutive n cols :
  Forall (fun c => length c = n) cols ->
  transpose (length cols) (transpose n cols) = cols.
Proof.
  induction 1 as [|c cols Hc _ IH]; simpl; [reflexivity|].
  now rewrite (transpose_hd _ _ _ Hc), transpose_tl, IH.
Qed.

(** ** The cells *)

Lemma lstrip_ascii_digits s : all_chars digit_or_minus s = true -> lstrip_ascii s = s.
Proof.
  destruct s as [|c s]; simpl; [reflexivity|]. intros H.
  apply andb_true_iff in H as [Hc _].
  destruct (isspace_ascii c) eqn:E; [|reflexivity].
  exfalso. revert Hc E. unfold digit_or_minus, isspace_ascii.
  generalize (nat_of_ascii c) as n. intros n Hc E.
  repeat match goal with
         | H : (_ || _) = true |- _ => apply orb_true_iff in H as [H|H]
         | H : (_ && _) = true |- _ => apply andb_true_iff in H as [? ?]
         | H : (_ <=? _)%nat = true |- _ => apply Nat.leb_le in H
         | H : (_ =? _)%nat = true |- _ => apply Nat.eqb_eq in H
         end; lia.
Qed.

Lemma rstrip_ascii_digits s : all_chars digit s = true -> rstrip_ascii s = s.
Proof.
  induction s as [|c s IH]; simpl; [reflexivity|]. intros H.
  apply andb_true_iff in H as [Hc Hs]. rewrite (IH Hs).
  destruct s; [|reflexivity].
  destruct (isspace_ascii c) eqn:E; [|reflexivity].
  exfalso. revert Hc E. unfold digit, isspace_ascii.
  generalize (nat_of_ascii c) as n. intros n Hc E.
  repeat match goal with
         | H : (_ || _) = true |- _ => apply orb_true_iff in H as [H|H]
         | H : (_ && _) = true |- _ => apply andb_true_iff in H as [? ?]
         | H : (_ <=? _)%nat = true |- _ => apply Nat.leb_le in H
         | H : (_ =? _)%nat = true |- _ => apply Nat.eqb_eq in H
         end; lia.
Qed.

Lemma digit_not_sign c : digit c = true -> Ascii.eqb c "-" = false /\ Ascii.eqb c "+" = false.
Proof.
  intros H. split; apply Ascii.eqb_neq; intros ->; discriminate H.
Qed.

Lemma uint_of_string_of_uint d :
  d <> Decimal.Nil -> NilZero.uint_of_string (NilEmpty.string_of_uint d) = Some d.
Proof.
  intros Hd. rewrite <- (NilZero.usu d Hd). unfold NilZero.string_of_uint.
  destruct d; [contradiction|reflexivity..].
Qed.

Lemma string_of_uint_first d :
  d <> Decimal.Nil ->
  exists c r, NilEmpty.string_of_uint d = String c r /\ digit c = true.
Proof.
  intros Hd. destruct d; [contradiction|simpl; eexists; eexists; split; reflexivity ..].
Qed.

(** The digits of a positive number read back as that number. *)
Lemma str_to_int64_digits p :
  let s := NilEmpty.string_of_uint (Pos.to_uint p) in
  rstrip_ascii s = s
  /\ NilZero.uint_of_string s = Some (Pos.to_uint p)
  /\ Z.of_uint (Pos.to_uint p) = Z.pos p.
Proof.
  intros s. split; [|split].
  - apply rstrip_ascii_digits, string_of_uint_digits.
  - apply uint_of_string_of_uint, DecimalPos.Unsigned.to_uint_nonnil.
  - unfold Z.of_uint. now rewrite DecimalPos.Unsigned.of_to.
Qed.

Lemma str_to_int64_str_int z : in_int64 z = true -> str_to_int64 (str_int z) = Parsed z.
Proof.
  intros Hz. unfold str_to_int64.
  rewrite lstrip_ascii_digits by apply str_int_chars.
  destruct (str_int_cases z) as [[-> ->]|[(p & -> & ->)|(p & -> & ->)]].
  - reflexivity.
  - destruct (str_to_int64_digits p) as (H1 & H2 & H3).
    destruct (string_of_uint_first (Pos.to_uint p)) as (c & r & E & Hc);
      [apply DecimalPos.Unsigned.to_uint_nonnil|].
    destruct (digit_not_sign c Hc) as [N1 N2].
    rewrite E, N1, N2, <- E, H1, H2, H3.
    unfold in_int64 in Hz. now rewrite Hz.
  - destruct (str_to_int64_digits p) as (H1 & H2 & H3).
    change (Ascii.eqb "-" "-") with true. cbv iota.
    rewrite H1, H2, H3. change (- Z.pos p) with (Z.neg p).
    unfold in_int64 in Hz. now rewrite Hz.
Qed.

Lemma is_na_digits s :
  all_chars digit_or_minus s = true -> s <> EmptyString -> is_na s = false.
Proof.
  intros H Hne. unfold is_na, na_values. cbn [existsb].
  repeat match goal with
         | |- context [String.eqb s ?t] =>
             destruct (String.eqb_spec s t) as [E|_];
             [subst s; first [discriminate H | now contradiction Hne]|]
         end.
  reflexivity.
Qed.

Lemma str_int_nonempty z : str_int z <> EmptyString.
Proof.
  destruct (str_int_cases z) as [[_ ->]|[(p & _ & ->)|(p & _ & ->)]]; try discriminate.
  destruct (string_of_uint_first (Pos.to_uint p)) as (c & r & E & _);
    [apply DecimalPos.Unsigned.to_uint_nonnil|]. rewrite E. discriminate.
Qed.

Lemma parse_int_cells_text l :
  forallb in_int64 l = true -> parse_int_cells (map str_int l) = Return (l, false).
Proof.
  induction l as [|z l IH]; simpl; intros H; [reflexivity|].
  apply andb_true_iff in H as [Hz H].
  rewrite is_na_digits by (apply str_int_chars || apply str_int_nonempty).
  now rewrite (str_to_int64_str_int _ Hz), (IH H).
Qed.

Lemma parse_bool_cells_text l : parse_bool_cells (map str_bool l) = Return l.
Proof.
  induction l as [|b l IH]; [reflexivity|].
  cbn [map parse_bool_cells].
  destruct b; (change (is_na (str_bool _)) with false); cbv iota;
    (change (to_boolean (str_bool true)) with (Some true)
     || change (to_boolean (str_bool false)) with (Some false));
    cbv iota; now rewrite IH.
Qed.

Lemma parse_object_cells_read_back l :
  parse_object_cells (map (cell_text (fun t => t)) l) = map read_back l.
Proof.
  unfold parse_object_cells. induction l as [|x l IH]; [reflexivity|].
  cbn [map]. rewrite IH. now destruct x.
Qed.

Lemma parse_float_cells_read_back l :
  cells_ready (FloatSeries l) = true ->
  parse_float_cells (map (cell_text float_str) l) = Return (map read_back_float l).
Proof.
  cbn [cells_ready]. induction l as [|x l IH]; cbn [forallb map parse_float_cells]; intros H.
  - reflexivity.
  - apply andb_true_iff in H as [Hx H]. rewrite (IH H).
    destruct x as [v|]; cbn [cell_text read_back_float].
    + apply andb_true_iff in Hx as [_ Hx].
      destruct (is_na (float_str v)); [reflexivity|]. cbn [orb] in Hx.
      now destruct (xstrtod (float_str v)).
    + reflexivity.
Qed.

(** Converting the written cells of a column to its dtype gives the column
    as [read_csv] reads it. *)
Lemma convert_column_read_back s :
  cells_ready s = true ->
  convert_column (series_dtype s) (series_text s) = Return (read_back_series s).
Proof.
  destruct s as [l|l|l|l|l|l]; intros H;
    cbn [series_dtype series_text convert_column read_back_series].
  - cbn [cells_ready] in H. now rewrite (parse_int_cells_text _ H).
  - now rewrite parse_bool_cells_text.
  - now rewrite parse_object_cells_read_back.
  - now rewrite (parse_float_cells_read_back _ H).
  - cbn [cells_ready] in H. now rewrite (empty_nil _ H).
  - now rewrite parse_object_cells_read_back.
Qed.

Lemma convert_columns_read_back df :
  forallb (fun c => cells_ready (values c)) df = true ->
  convert_columns (zip (columns_of df) (dtypes df))
                  (map (fun c => series_text (values c)) df)
  = Return (read_back_frame df).
Proof.
  induction df as [|[n s] df IH]; intros H; [reflexivity|].
  cbn [forallb values] in H. apply andb_true_iff in H as [Hs H].
  unfold zip, columns_of, dtypes, read_back_frame in *.
  cbn [map combine convert_columns name values].
  now rewrite (convert_column_read_back _ Hs), (IH H).
Qed.

(** ** Putting the pieces together *)

Lemma blank_rstrip s : blank s = true -> rstrip s = EmptyString.
Proof.
  induction s as [|c s IH]; simpl; [reflexivity|]. intros H.
  apply andb_true_iff in H as [Hc Hs]. rewrite (IH Hs).
  apply orb_true_iff in Hc as [Hc|Hc]; apply Ascii.eqb_eq in Hc; subst c; reflexivity.
Qed.

Lemma last_str_dtype ts :
  ts <> [] ->
  last (map str_dtype ts) EmptyString <> EmptyString
  /\ rstrip (last (map str_dtype ts) EmptyString) = last (map str_dtype ts) EmptyString.
Proof.
  induction ts as [|t [|t' ts] IH]; intros Hne.
  - contradiction.
  - destruct t; split; (discriminate || reflexivity).
  - apply IH. discriminate.
Qed.

Lemma last_in {A : Type} (l : list A) d : l <> [] -> In (last l d) l.
Proof.
  induction l as [|x [|y l] IH]; intros Hne.
  - contradiction.
  - now left.
  - right. apply IH. discriminate.
Qed.

Section ReadyFrame.

Variable df : DataFrame.
Hypothesis Hready : codec_ready df = true.

Lemma ready_parts :
  rectangular df = true
  /\ df <> []
  /\ forallb plain (columns_of df) = true
  /\ (forall n, In n (columns_of df) -> n <> EmptyString)
  /\ has_duplicates (columns_of df) = false
  /\ rstrip (last (columns_of df) EmptyString) = last (columns_of df) EmptyString
  /\ forallb (fun c => cells_ready (values c)) df = true
  /\ lone_column_readable df = true.
Proof.
  pose proof Hready as H. unfold codec_ready in H.
  apply andb_true_iff in H as [H Hvis]. apply andb_true_iff in H as [H Hcells].
  apply andb_true_iff in H as [Hrect H]. unfold valid_schema in H.
  apply andb_true_iff in H as [H Hlast]. apply andb_true_iff in H as [H Hdup].
  apply andb_true_iff in H as [Hne Hnames].
  repeat split; try assumption.
  - intros E. rewrite E in Hne. discriminate Hne.
  - eapply forallb_impl; [|exact Hnames]. intros n Hn.
    now apply andb_true_iff in Hn as [Hn _].
  - intros n Hin E. subst n. rewrite forallb_forall in Hnames. specialize (Hnames _ Hin).
    apply andb_true_iff in Hnames as [_ Hnames]. discriminate Hnames.
  - now apply negb_true_iff.
  - now apply String.eqb_eq.
Qed.

Lemma name_line_visible : blank (name_line df) = false.
Proof.
  destruct ready_parts as (_ & Hne & _ & Hnn & _ & Hlast & _).
  unfold name_line. destruct df as [|c [|c' d]].
  - contradiction.
  - simpl in *. destruct (blank (name c)) eqn:E; [|reflexivity].
    rewrite (blank_rstrip _ E) in Hlast. exfalso. apply (Hnn (name c)); auto.
  - apply blank_no_comma. apply join_two_contains_comma.
Qed.

Lemma saved_text_shape :
  saved_text df = tag_line df ++ String LF (name_line df ++ String LF (body_text df)).
Proof.
  destruct ready_parts as (_ & _ & Hplain & _).
  unfold saved_text, to_csv_text. fold (rows df). cbn [map].
  rewrite concat_cons, (csv_row_plain _ Hplain name_line_visible).
  now rewrite !app_NL.
Qed.

(** The data records are read back as the rows of the frame. *)
Lemma body_read :
  records (body_text df) = Some (rows df) /\ contains CR (body_text df) = false.
Proof.
  destruct ready_parts as (_ & _ & _ & _ & _ & _ & Hcells & Hvis).
  pose proof (rows_clean _ Hcells) as Hp. pose proof (rows_readable _ Hvis) as Hv.
  unfold body_text. split.
  - apply records_written. apply forallb_both; [exact Hv|].
    eapply forallb_impl; [|exact Hp]. intros r Hr.
    destruct (clean_row _ Hr) as [Hlf _]. now rewrite Hlf.
  - now apply records_no_CR.
Qed.

(** The header lines are read back as they were written. *)
Lemma header_read :
  split COMMA (rstrip (tag_line df)) = map str_dtype (dtypes df)
  /\ split COMMA (rstrip (name_line df)) = columns_of df.
Proof.
  destruct ready_parts as (_ & Hne & Hplain & Hnn & _ & Hlast & _).
  split.
  - unfold tag_line.
    destruct (last_str_dtype (dtypes df)) as [L1 L2].
    { destruct df; [contradiction|discriminate]. }
    destruct (rstrip_join (map str_dtype (dtypes df))) as [_ ->]; auto.
    { destruct df; [contradiction|discriminate]. }
    apply split_join.
    + destruct df; [contradiction|discriminate].
    + rewrite forallb_map_eq. apply forallb_forall. intros t _. now destruct t.
  - unfold name_line.
    assert (Hcols : columns_of df <> []) by (destruct df; [contradiction|discriminate]).
    destruct (rstrip_join (columns_of df)) as [_ ->]; auto.
    { apply Hnn. now apply last_in. }
    apply split_join; [exact Hcols|].
    eapply forallb_impl; [|exact Hplain]. intros x Hx.
    now rewrite (plain_no_special COMMA x) by tauto.
Qed.

Lemma table_read :
  transpose (length (columns_of df)) (rows df) = map (fun c => series_text (values c)) df
  /\ row_arity (length (columns_of df)) true (rows df) = Fits.
Proof.
  destruct ready_parts as (Hrect & _).
  assert (Hlen : length (columns_of df) = length (map (fun c => series_text (values c)) df)).
  { unfold columns_of. now rewrite !length_map. }
  split.
  - rewrite Hlen. unfold rows. apply transpose_involutive.
    apply Forall_forall. intros l Hin. apply in_map_iff in Hin as (c & <- & Hc).
    unfold rectangular in Hrect. rewrite forallb_forall in Hrect.
    specialize (Hrect c Hc). apply Nat.eqb_eq in Hrect.
    now rewrite <- series_len_text.
  - apply row_arity_fits. rewrite Hlen. apply transpose_row_length.
Qed.

(** Loading the text that saving leaves gives the frame as [read_csv] reads
    its cells: NA markers as missing values, floats as their text denotes
    them. *)
Lemma load_saved_text_ready : load_text (saved_text df) = Return (read_back_frame df).
Proof.
  destruct ready_parts as (_ & Hne & Hplain & _ & Hdup & _ & Hcells & _).
  destruct body_read as (Hrec & Hcr).
  destruct header_read as (Htags & Hnames).
  destruct table_read as (Htab & Har).
  rewrite saved_text_shape.
  rewrite load_text_two_lines.
  - rewrite Htags, Hnames. unfold read_csv_text.
    replace (empty (columns_of df)) with false by (destruct df; [contradiction|reflexivity]).
    rewrite declared_dtypes_zip;
      [|unfold columns_of, dtypes; now rewrite !length_map|exact Hdup].
    rewrite Hrec, Har, Hdup, Htab.
    now apply convert_columns_read_back.
  - rewrite contains_app. cbn [contains]. rewrite contains_app. cbn [contains].
    unfold tag_line, name_line.
    rewrite contains_tags by reflexivity.
    rewrite plain_row_no_special by tauto. now rewrite Hcr.
  - unfold tag_line. now apply contains_tags.
  - unfold name_line. apply plain_row_no_special; tauto.
Qed.

End ReadyFrame.

(** ** Frames of integer, boolean and string columns *)

Lemma plain_cells_ready s : plain_cells s = true -> cells_ready s = true.
Proof.
  destruct s as [l|l|l|l|l|l]; cbn [plain_cells cells_ready]; intros H; try exact H.
  - eapply forallb_impl; [|exact H]. intros [t|] Ht; [now apply plain_clean|reflexivity].
  - now rewrite (empty_nil _ H).
  - now rewrite (empty_nil _ H).
Qed.

Lemma lone_column_visible_readable df :
  lone_column_visible df = true -> lone_column_readable df = true.
Proof.
  destruct df as [|c [|c' df]]; cbn [lone_column_visible lone_column_readable]; auto.
  apply forallb_impl. now intros t ->.
Qed.

Lemma codec_plain_ready df : codec_plain df = true -> codec_ready df = true.
Proof.
  unfold codec_plain, codec_ready. intros H.
  apply andb_true_iff in H as [H Hvis]. apply andb_true_iff in H as [H Hcells].
  rewrite H, (lone_column_visible_readable _ Hvis), andb_true_r. cbn [andb].
  eapply forallb_impl; [|exact Hcells]. intros c. apply plain_cells_ready.
Qed.

Lemma valid_cells_plain s :
  valid_cells s = true -> plain_cells s = true /\ read_back_series s = s.
Proof.
  destruct s as [l|l|l|l|l|l]; cbn [valid_cells plain_cells read_back_series]; intros H;
    try (split; [exact H|reflexivity]);
    try (rewrite (empty_nil _ H); split; reflexivity).
  induction l as [|x l IH]; cbn [forallb map] in *; [split; reflexivity|].
  apply andb_true_iff in H as [Hx H]. destruct (IH H) as [I1 I2].
  rewrite I1, andb_true_r. inversion I2 as [I3]. rewrite !I3.
  destruct x as [t|]; [|split; reflexivity].
  apply andb_true_iff in Hx as [Hp Hna]. apply negb_true_iff in Hna.
  cbn [read_back]. now rewrite Hp, Hna.
Qed.

Lemma codec_safe_plain df :
  codec_safe df = true -> codec_plain df = true /\ read_back_frame df = df.
Proof.
  unfold codec_safe, codec_plain. intros H.
  apply andb_true_iff in H as [H Hvis]. apply andb_true_iff in H as [H Hcells].
  rewrite H, Hvis, andb_true_r. cbn [andb]. clear H Hvis.
  induction df as [|[n s] df IH]; [split; reflexivity|].
  cbn [forallb values] in *. apply andb_true_iff in Hcells as [Hs Hcells].
  destruct (IH Hcells) as [I1 I2]. destruct (valid_cells_plain _ Hs) as [P1 P2].
  rewrite P1, I1. split; [reflexivity|].
  unfold read_back_frame in *. cbn [map name values]. now rewrite P2, I2.
Qed.

(** Loading the text that saving leaves gives the frame with its NA
    markers read as missing values. *)
Lemma load_saved_text_read_back df :
  codec_plain df = true -> load_text (saved_text df) = Return (read_back_frame df).
Proof.
  intros H. apply load_saved_text_ready. now apply codec_plain_ready.
Qed.

(** Loading the text that saving leaves gives the frame back. *)
Lemma load_saved_text df : codec_safe df = true -> load_text (saved_text df) = Return df.
Proof.
  intros H. destruct (codec_safe_plain _ H) as [Hp Hid].
  now rewrite (load_saved_text_read_back _ Hp), Hid.
Qed.

(** ** The codec on files *)

(** [load_dataset] returns what [load_text] makes of the file's text. *)
Lemma load_dataset_run filename w text :
  files w filename = Some text -> fst (load_dataset filename w) = load_text text.
Proof.
  intros H. unfold load_dataset, load_text, with_open, open_. rewrite H.
  generalize (universal_newlines text) as stream. intros stream.
  unfold io_bind, next, read_csv, f_read, io_lift, io_bind. step_file_object.
  destruct stream as [|c s]; [reflexivity|].
  destruct (take_line (String c s)) as [line1 rest1]. step_file_object.
  destruct rest1 as [|c1 s1]; [reflexivity|].
  destruct (take_line (String c1 s1)) as [line2 rest2]. step_file_object.
  reflexivity.
Qed.

Lemma load_after_save filename dataset w :
  fst (load_dataset filename (snd (save_dataset filename dataset w)))
  = load_text (saved_text dataset).
Proof.
  apply load_dataset_run. apply save_dataset_run.
Qed.

(** Without NA markers among its strings a frame is read back with its
    floats changed only. *)
Lemma read_back_faithful df :
  forallb (fun c => keeps_strings (values c)) df = true ->
  read_back_frame df = text_precision df.
Proof.
  assert (Hkeep : forall l,
            forallb (fun x : option string =>
                       match x with Some t => negb (is_na t) | None => true end) l = true ->
            map read_back l = l).
  { induction l as [|x l IH]; cbn [forallb map]; intros H; [reflexivity|].
    apply andb_true_iff in H as [Hx H]. rewrite (IH H).
    destruct x as [t|]; [|reflexivity]. apply negb_true_iff in Hx.
    cbn [read_back]. now rewrite Hx. }
  unfold read_back_frame, text_precision.
  induction df as [|[n s] df IH]; cbn [forallb map name values]; intros H; [reflexivity|].
  apply andb_true_iff in H as [Hs H]. rewrite (IH H). f_equal. f_equal.
  destruct s as [l|l|l|l|l|l];
    cbn [keeps_strings read_back_series text_precision_series] in *;
    try reflexivity; now rewrite (Hkeep _ Hs).
Qed.

Lemma text_precision_shape df :
  columns_of (text_precision df) = columns_of df
  /\ dtypes (text_precision df) = dtypes df
  /\ nrows (text_precision df) = nrows df.
Proof.
  unfold text_precision, columns_of, dtypes.
  split; [|split].
  - rewrite map_map. now apply map_ext.
  - rewrite map_map. apply map_ext. intros [n s]. now destruct s.
  - destruct df as [|[n s] df]; [reflexivity|]. cbn [map nrows name values].
    destruct s; cbn [text_precision_series series_len]; try reflexivity.
    apply length_map.
Qed.

(** Where the float parser inverts the float format, nothing is changed. *)
Lemma text_precision_exact df :
  (forall c l, In c df -> values c = FloatSeries l -> map read_back_float l = l) ->
  text_precision df = df.
Proof.
  unfold text_precision. induction df as [|[n s] df IH]; intros H; [reflexivity|].
  cbn [map name values]. rewrite IH by (intros c l Hc; apply H; now right).
  f_equal. f_equal. destruct s as [l|l|l|l|l|l]; try reflexivity.
  cbn [text_precision_series]. f_equal. apply (H (mk_column n (FloatSeries l))); [now left|].
  reflexivity.
Qed.


Lemma zero_rows_safe df :
  valid_schema df = true -> zero_rows df = true -> codec_safe df = true.
Proof.
  intros Hs Hz. unfold codec_safe. rewrite Hs, andb_true_r.
  unfold zero_rows in Hz. rewrite forallb_forall in Hz.
  assert (Hn : nrows df = O).
  { destruct df as [|c df]; [reflexivity|]. simpl. apply Nat.eqb_eq, Hz. now left. }
  assert (Ht : forall c, In c df -> series_text (values c) = []).
  { intros c Hc. specialize (Hz c Hc). apply Nat.eqb_eq in Hz.
    rewrite series_len_text in Hz. now apply length_zero_iff_nil. }
  repeat (apply andb_true_iff; split).
  - unfold rectangular. apply forallb_forall. intros c Hc. rewrite Hn. now apply Hz.
  - apply forallb_forall. intros c Hc. specialize (Hz c Hc). apply Nat.eqb_eq in Hz.
    destruct (values c) as [l|l|l|l|l|l]; simpl in *; try reflexivity;
      apply length_zero_iff_nil in Hz; now subst l.
  - destruct df as [|c [|c' df]]; try reflexivity. simpl. rewrite Ht; [reflexivity|now left].
Qed.


(* ================================================================== *)
(** * Failures of [load_dataset] *)
(* ================================================================== *)

Lemma load_text_header text :
  load_text text
  = match header_of text with
    | None => Raise StopIteration
    | Some (types, columns, body) => read_csv_text body (dict_of (zip columns types)) columns
    end.
Proof.
  unfold load_text, header_of.
  destruct (universal_newlines text) as [|c s]; [reflexivity|].
  destruct (take_line (String c s)) as [line1 [|c1 s1]]; [reflexivity|].
  destruct (take_line (String c1 s1)) as [line2 rest2]. reflexivity.
Qed.

Lemma row_arity_too_many n before row after :
  before <> [] -> Forall (fun r => length r = n) before -> (n < length row)%nat ->
  row_arity n true (before ++ row :: after)%list = TooMany.
Proof.
  intros Hne Hall Hrow. destruct before as [|r0 before]; [contradiction|].
  apply Forall_cons_iff in Hall as [H0 Hrest]. cbn [app row_arity].
  rewrite H0, Nat.eqb_refl. clear Hne H0.
  induction Hrest as [|r before Hr _ IH]; cbn [app row_arity].
  - destruct (Nat.eqb_spec (length row) n) as [E|_]; [lia|].
    apply Nat.ltb_lt in Hrow. now rewrite Hrow.
  - now rewrite Hr, Nat.eqb_refl.
Qed.

Lemma header_of_columns text types columns body :
  header_of text = Some (types, columns, body) -> empty columns = false.
Proof.
  unfold header_of. destruct (universal_newlines text) as [|c s]; [discriminate|].
  destruct (take_line (String c s)) as [line1 [|c1 s1]]; [discriminate|].
  destruct (take_line (String c1 s1)) as [line2 rest2]. intros E. inversion E; subst.
  pose proof (split_nonempty COMMA (rstrip line2)) as Hne.
  destruct (split COMMA (rstrip line2)); [contradiction|reflexivity].
Qed.

(** C2, amended: [load_dataset] fails with [StopIteration] when the file
    ends before its second line starts; otherwise it hands the rest of the
    file to [read_csv] with the names of the second line and the dictionary
    zipped from the two header lines, whose field counts it does not
    compare; and it fails with pandas' [ParserError] when, the declared
    dtypes being known, the names distinct and the data free of quotes, a
    data row after the first has more fields than there are names while
    every row before it has as many as there are names. *)
Theorem load_dataset_format_errors (filename : string) (w : world) (text : string) :
  files w filename = Some text ->
  (header_of text = None -> fst (load_dataset filename w) = Raise StopIteration)
  /\ (forall types columns body,
        header_of text = Some (types, columns, body) ->
        fst (load_dataset filename w)
        = read_csv_text body (dict_of (zip columns types)) columns)
  /\ (forall types columns body ts before row after,
        header_of text = Some (types, columns, body) ->
        contains QUOTE body = false ->
        declared_dtypes (dict_of (zip columns types)) columns = Some ts ->
        has_duplicates columns = false ->
        tokenize body = (before ++ row :: after)%list ->
        before <> [] ->
        Forall (fun r => length r = length columns) before ->
        (length columns < length row)%nat ->
        fst (load_dataset filename w) = Raise ParserError).
Proof.
  intros Hfile. rewrite (load_dataset_run _ _ _ Hfile), load_text_header.
  split; [|split].
  - now intros ->.
  - now intros types columns body ->.
  - intros types columns body ts before row after Hh Hq Hdecl Hdup Htok Hne Hall Hrow.
    pose proof (header_of_columns _ _ _ _ Hh) as Hcols. rewrite Hh.
    unfold read_csv_text. rewrite Hcols, Hdecl, (records_quote_free _ Hq), Htok, Hdup.
    now rewrite (row_arity_too_many _ _ _ _ Hne Hall Hrow).
Qed.

(** ** Values that are refused *)

Lemma uint_of_string_digits s d :
  NilEmpty.uint_of_string s = Some d -> all_chars digit s = true.
Proof.
  revert d. induction s as [|a s IH]; intros d H; [reflexivity|].
  cbn [NilEmpty.uint_of_string] in H.
  destruct (NilEmpty.uint_of_string s) as [d0|]; [|discriminate H].
  apply uint_of_char_spec in H. cbn [all_chars]. rewrite (IH d0 eq_refl), andb_true_r.
  decompose [or and] H; subst; reflexivity.
Qed.

Lemma digit_numeric c : digit c = true -> numeric_char c = true.
Proof.
  unfold numeric_char. now intros ->.
Qed.

Lemma isspace_ascii_numeric c : isspace_ascii c = true -> numeric_char c = true.
Proof.
  destruct c as [[|] [|] [|] [|] [|] [|] [|] [|]]; vm_compute; intros H;
    first [discriminate H | reflexivity].
Qed.

Lemma toupper_numeric c : numeric_char (toupper c) = true -> numeric_char c = true.
Proof.
  destruct c as [[|] [|] [|] [|] [|] [|] [|] [|]]; vm_compute; intros H;
    first [discriminate H | reflexivity].
Qed.

Lemma numeric_lstrip_ascii s :
  all_chars numeric_char (lstrip_ascii s) = true -> all_chars numeric_char s = true.
Proof.
  induction s as [|c s IH]; [auto|]. cbn [lstrip_ascii all_chars].
  destruct (isspace_ascii c) eqn:E; intros H; [|exact H].
  now rewrite (isspace_ascii_numeric _ E), (IH H).
Qed.

Lemma numeric_rstrip_ascii s :
  all_chars numeric_char (rstrip_ascii s) = true -> all_chars numeric_char s = true.
Proof.
  induction s as [|c s IH]; [auto|]. cbn [rstrip_ascii].
  destruct (rstrip_ascii s) as [|d r].
  - cbn [all_chars]. rewrite (IH eq_refl), andb_true_r.
    destruct (isspace_ascii c) eqn:E; intros H.
    + now apply isspace_ascii_numeric.
    + cbn [all_chars] in H. now rewrite andb_true_r in H.
  - intros H. change (numeric_char c && all_chars numeric_char (String d r) = true) in H.
    apply andb_true_iff in H as [Hc Hr]. cbn [all_chars]. now rewrite Hc, (IH Hr).
Qed.

Lemma numeric_upper s :
  all_chars numeric_char (upper s) = true -> all_chars numeric_char s = true.
Proof.
  induction s as [|c s IH]; [auto|]. cbn [upper all_chars]. intros H.
  apply andb_true_iff in H as [Hc Hs]. now rewrite (toupper_numeric _ Hc), (IH Hs).
Qed.

Lemma numeric_digits s d :
  NilZero.uint_of_string (rstrip_ascii s) = Some d -> all_chars numeric_char s = true.
Proof.
  intros H. apply numeric_rstrip_ascii.
  apply (all_chars_weaken digit); [exact digit_numeric|].
  apply (uint_of_string_digits _ d). unfold NilZero.uint_of_string in H.
  now destruct (rstrip_ascii s).
Qed.

(** The integer parser reads nothing from a field with a character that
    no numeral holds. *)
Lemma str_to_int64_hopeless x : hopeless x = true -> str_to_int64 x = ErrInvalid.
Proof.
  unfold hopeless. intros H. apply negb_true_iff in H.
  assert (G : forall s d, all_chars numeric_char (lstrip_ascii x) = true
                          \/ NilZero.uint_of_string (rstrip_ascii s) = Some d
                             /\ (lstrip_ascii x = s
                                 \/ lstrip_ascii x = String "-" s
                                 \/ lstrip_ascii x = String "+" s) -> False).
  { intros s d [K|[K1 K2]].
    - apply numeric_lstrip_ascii in K. congruence.
    - apply numeric_digits in K1.
      assert (K : all_chars numeric_char (lstrip_ascii x) = true).
      { destruct K2 as [-> |[-> | ->]]; [exact K1| |]; cbn [all_chars]; now rewrite K1. }
      apply numeric_lstrip_ascii in K. congruence. }
  unfold str_to_int64. destruct (lstrip_ascii x) as [|c r] eqn:E.
  - reflexivity.
  - destruct (Ascii.eqb_spec c "-") as [->|N1]; [|destruct (Ascii.eqb_spec c "+") as [->|N2]].
    + destruct (NilZero.uint_of_string (rstrip_ascii r)) as [d|] eqn:U; [|reflexivity].
      exfalso. apply (G r d). right. auto.
    + destruct (NilZero.uint_of_string (rstrip_ascii r)) as [d|] eqn:U; [|reflexivity].
      exfalso. apply (G r d). right. auto.
    + destruct (NilZero.uint_of_string (rstrip_ascii (String c r))) as [d|] eqn:U;
        [|reflexivity].
      exfalso. apply (G (String c r) d). right. auto.
Qed.

(** Nor does the parser of truth values. *)
Lemma to_boolean_hopeless x : hopeless x = true -> to_boolean x = None.
Proof.
  unfold hopeless, to_boolean. intros H. apply negb_true_iff in H.
  destruct (String.eqb_spec (upper x) "TRUE") as [E|_].
  - rewrite (numeric_upper x) in H; [discriminate H|now rewrite E].
  - destruct (String.eqb_spec (upper x) "FALSE") as [E|_]; [|reflexivity].
    rewrite (numeric_upper x) in H; [discriminate H|now rewrite E].
Qed.

Lemma existsb_never {A : Type} (l : list A) : existsb (fun _ => false) l = false.
Proof.
  induction l as [|x l IH]; [reflexivity|exact IH].
Qed.

(** On settled fields the conversion of an int64 column is decided: it
    raises [ValueError] when a field is refused. *)
Lemma parse_int_cells_settled fields :
  forallb (settled dt_int64) fields = true ->
  match parse_int_cells fields with
  | Return r => snd r = false -> existsb (refuses dt_int64) fields = false
  | Raise e => e = ValueError
  | Unmodelled => False
  end.
Proof.
  induction fields as [|x fields IH]; [simpl; auto|].
  cbn [forallb existsb parse_int_cells]. intros H. apply andb_true_iff in H as [Hx H].
  specialize (IH H). unfold settled in Hx. cbn [accepts refuses] in *.
  destruct (is_na x) eqn:Ena.
  - destruct (parse_int_cells fields) as [r|e|]; cbn [bind snd]; auto; discriminate.
  - cbn [negb andb orb] in *. destruct (hopeless x) eqn:Eh.
    + now rewrite (str_to_int64_hopeless _ Eh).
    + rewrite orb_false_r in Hx. destruct (str_to_int64 x); try discriminate Hx.
      destruct (parse_int_cells fields) as [r|e|]; cbn [bind snd]; auto.
Qed.

Lemma parse_bool_cells_settled fields :
  forallb (settled dt_bool) fields = true ->
  match parse_bool_cells fields with
  | Return _ => existsb (refuses dt_bool) fields = false
  | Raise e => e = ValueError
  | Unmodelled => False
  end.
Proof.
  induction fields as [|x fields IH]; [simpl; auto|].
  cbn [forallb existsb parse_bool_cells]. intros H. apply andb_true_iff in H as [Hx H].
  specialize (IH H). unfold settled in Hx. cbn [accepts refuses] in *.
  destruct (is_na x) eqn:Ena.
  - destruct (parse_bool_cells fields) as [r|e|]; cbn [bind]; auto.
  - cbn [negb andb orb] in *. destruct (hopeless x) eqn:Eh.
    + now rewrite (to_boolean_hopeless _ Eh).
    + rewrite orb_false_r in Hx. destruct (to_boolean x); try discriminate Hx.
      destruct (parse_bool_cells fields) as [r|e|]; cbn [bind]; auto.
Qed.

Lemma parse_float_cells_settled fields :
  forallb (settled dt_float64) fields = true ->
  match parse_float_cells fields with
  | Return _ => existsb (refuses dt_float64) fields = false
  | Raise e => e = ValueError
  | Unmodelled => False
  end.
Proof.
  induction fields as [|x fields IH]; [simpl; auto|].
  cbn [forallb existsb parse_float_cells]. intros H. apply andb_true_iff in H as [Hx H].
  specialize (IH H). unfold settled in Hx. cbn [accepts refuses] in *.
  destruct (is_na x) eqn:Ena.
  - destruct (parse_float_cells fields) as [r|e|]; cbn [bind negb andb orb]; auto.
  - cbn [negb andb orb] in *. destruct (xstrtod x) as [v|].
    + rewrite andb_false_r.
      destruct (parse_float_cells fields) as [r|e|]; cbn [bind orb]; auto.
    + rewrite andb_true_r in Hx. cbn [orb] in Hx. now rewrite Hx.
Qed.

(** On settled fields a column is converted when none of its fields is
    refused; otherwise the conversion raises a coercion error. *)
Lemma convert_column_settled t fields :
  forallb (settled t) fields = true ->
  match convert_column t fields with
  | Return _ => existsb (refuses t) fields = false
  | Raise e => coercion_error e
  | Unmodelled => False
  end.
Proof.
  intros H. destruct t; cbn [convert_column].
  - pose proof (parse_int_cells_settled fields H) as G.
    destruct (parse_int_cells fields) as [[l na]|e|]; cbn [bind snd fst] in *.
    + destruct na; [now left|now apply G].
    + now left.
    + exact G.
  - pose proof (parse_bool_cells_settled fields H) as G.
    destruct (parse_bool_cells fields) as [l|e|]; cbn [bind] in *; [exact G|now left|exact G].
  - apply existsb_never.
  - pose proof (parse_float_cells_settled fields H) as G.
    destruct (parse_float_cells fields) as [l|e|]; cbn [bind] in *; [exact G|now left|exact G].
  - destruct fields; [reflexivity|now right].
  - apply existsb_never.
Qed.

Lemma convert_columns_settled schema cols :
  (forall j n t fields,
     nth_error schema j = Some (n, t) -> nth_error cols j = Some fields ->
     forallb (settled t) fields = true) ->
  match convert_columns schema cols with
  | Return _ =>
      forall j n t fields,
        nth_error schema j = Some (n, t) -> nth_error cols j = Some fields ->
        existsb (refuses t) fields = false
  | Raise e => coercion_error e
  | Unmodelled => False
  end.
Proof.
  revert cols. induction schema as [|[n t] schema IH]; intros cols Hall.
  - simpl. intros [|j] n t fields H; discriminate H.
  - destruct cols as [|fields cols].
    + simpl. intros [|j] n' t' fields' _ H; discriminate H.
    + cbn [convert_columns].
      pose proof (convert_column_settled t fields (Hall O n t fields eq_refl eq_refl)) as Hc.
      destruct (convert_column t fields) as [s|e|]; cbn [bind] in *; auto.
      specialize (IH cols (fun j => Hall (S j))).
      destruct (convert_columns schema cols) as [rest|e|]; cbn [bind] in *; auto.
      intros [|j] n' t' fields' H1 H2; cbn [nth_error] in *.
      * inversion H1; inversion H2; subst. exact Hc.
      * eapply IH; eassumption.
Qed.


(** Column [j] of a table of rows: field [j] of every row. *)
Lemma transpose_nth n rows_ j :
  (j < n)%nat ->
  nth_error (transpose n rows_) j = Some (map (fun r => nth j r EmptyString) rows_).
Proof.
  revert rows_ j. induction n as [|n IH]; intros rows_ j Hj; [lia|].
  destruct j as [|j]; simpl.
  - f_equal. apply map_ext. now intros [|x r].
  - rewrite IH by lia. f_equal. rewrite map_map. apply map_ext.
    intros [|x r]; [now destruct j|reflexivity].
Qed.

Lemma declared_dtypes_at d names ts j n :
  declared_dtypes d names = Some ts -> nth_error names j = Some n ->
  exists tag t,
    dict_get n d = Some tag /\ dtype_of_tag tag = Some t /\ nth_error ts j = Some t.
Proof.
  revert ts j. induction names as [|n0 names IH]; intros ts j Hd Hn.
  - destruct j; discriminate Hn.
  - simpl in Hd. destruct (dict_get n0 d) as [tag|] eqn:Eg; [|discriminate].
    destruct (dtype_of_tag tag) as [t|] eqn:Et; [|discriminate].
    destruct (declared_dtypes d names) as [ts'|] eqn:Ed; [|discriminate].
    inversion Hd; subst. destruct j as [|j]; simpl in *.
    + inversion Hn; subst. eauto.
    + eapply IH; eauto.
Qed.

Lemma in_combine_nth {A B : Type} (a : list A) (b : list B) j x y :
  nth_error a j = Some x -> nth_error b j = Some y -> In (x, y) (combine a b).
Proof.
  revert b j. induction a as [|x' a IH]; intros [|y' b] [|j] Ha Hb; simpl in *;
    try discriminate.
  - inversion Ha; inversion Hb; subst. now left.
  - right. eapply IH; eassumption.
Qed.

Lemma nth_error_combine {A B : Type} (a : list A) (b : list B) j x y :
  nth_error a j = Some x -> nth_error b j = Some y ->
  nth_error (combine a b) j = Some (x, y).
Proof.
  revert b j. induction a as [|x' a IH]; intros [|y' b] [|j] Ha Hb; simpl in *;
    try discriminate.
  - now inversion Ha; inversion Hb.
  - now apply IH.
Qed.

Lemma existsb_keys_combine (p : string -> bool) (a b : list string) :
  existsb p a = false -> existsb p (map fst (combine a b)) = false.
Proof.
  revert b. induction a as [|x a IH]; intros [|y b] H; simpl in *; try reflexivity.
  apply orb_false_iff in H as [Hx H]. now rewrite Hx, IH.
Qed.

Lemma has_duplicates_combine (a b : list string) :
  has_duplicates a = false -> has_duplicates (map fst (combine a b)) = false.
Proof.
  revert b. induction a as [|x a IH]; intros [|y b] H; simpl in *; try reflexivity.
  apply orb_false_iff in H as [Hx H]. now rewrite existsb_keys_combine, IH.
Qed.

(** With distinct names the dictionary gives column [j] the tag at
    position [j] of the first header line. *)
Lemma dict_zip_positional columns types j n tag :
  has_duplicates columns = false ->
  nth_error columns j = Some n -> nth_error types j = Some tag ->
  dict_get n (dict_of (zip columns types)) = Some tag.
Proof.
  intros Hdup Hn Ht. unfold dict_of, zip.
  apply (dict_get_fold_present n tag _ []).
  - now apply has_duplicates_combine.
  - eapply in_combine_nth; eassumption.
Qed.

Lemma nth_error_combine_inv {A B : Type} (a : list A) (b : list B) j x y :
  nth_error (combine a b) j = Some (x, y) ->
  nth_error a j = Some x /\ nth_error b j = Some y.
Proof.
  revert b j. induction a as [|x' a IH]; intros [|y' b] [|j] H; simpl in *;
    try discriminate.
  - now inversion H.
  - now apply IH.
Qed.


(* ================================================================== *)
(** * Further properties of the lookups *)
(* ================================================================== *)

(** Either no row is selected, or the table splits at the first selected
    row. *)
Lemma loc_cases {A : Type} (mask : mapping_row -> bool) (col : mapping_row -> A) m :
  (loc mask col m = [] /\ forall r, In r m -> mask r = false)
  \/ (exists pre r post,
        m = (pre ++ r :: post)%list
        /\ (forall r', In r' pre -> mask r' = false)
        /\ mask r = true
        /\ loc mask col m = col r :: loc mask col post).
Proof.
  induction m as [|x m IH].
  - left. split; [reflexivity|]. intros r [].
  - destruct (mask x) eqn:Ex.
    + right. exists [], x, m. repeat split; try assumption.
      * intros r' [].
      * unfold loc. simpl. now rewrite Ex.
    + destruct IH as [[Hn Hall]|(pre & r & post & -> & Hpre & Hr & Hl)].
      * left. split.
        { unfold loc in *. simpl. now rewrite Ex. }
        { intros r [<-|Hin]; auto. }
      * right. exists (x :: pre), r, post. repeat split; try assumption.
        { intros r' [<-|Hin]; auto. }
        { unfold loc in *. simpl. now rewrite Ex. }
Qed.

(** The first selected row of a table is unique. *)
Lemma first_selected_unique (mask : mapping_row -> bool) pre r post pre' r' post' :
  (pre ++ r :: post)%list = (pre' ++ r' :: post')%list ->
  (forall x, In x pre -> mask x = false) -> mask r = true ->
  (forall x, In x pre' -> mask x = false) -> mask r' = true ->
  r = r'.
Proof.
  revert pre'. induction pre as [|a pre IH]; intros [|a' pre'] E Hp Hr Hp' Hr'; simpl in E.
  - now inversion E.
  - inversion E; subst. rewrite (Hp' a' (or_introl eq_refl)) in Hr. discriminate.
  - inversion E; subst. rewrite (Hp r' (or_introl eq_refl)) in Hr'. discriminate.
  - inversion E; subst. apply (IH pre'); auto.
    + intros x Hx. apply Hp. now right.
    + intros x Hx. apply Hp'. now right.
Qed.

Lemma first_row_mask (P : mapping_row -> Prop) (mask : mapping_row -> bool) m r :
  (forall x, mask x = true <-> P x) ->
  (first_row P m r <->
   exists pre post, m = (pre ++ r :: post)%list
                    /\ (forall r', In r' pre -> mask r' = false) /\ mask r = true).
Proof.
  intros HP. unfold first_row. split; intros (pre & post & E & H1 & H2); exists pre, post.
  - repeat split; [exact E| |now apply HP].
    intros r' Hin. destruct (mask r') eqn:Em; [|reflexivity].
    exfalso. apply (H2 r' Hin). now apply HP.
  - repeat split; [exact E|now apply HP|].
    intros r' Hin HPr. apply HP in HPr. rewrite (H1 r' Hin) in HPr. discriminate.
Qed.

(** A guarded lookup, [None] when the selection is empty and the first
    selected cell otherwise, characterised by the first row of the table
    that the mask selects. *)
Lemma guarded_lookup_spec (P : mapping_row -> Prop) (mask : mapping_row -> bool)
    (col : mapping_row -> Z) m :
  (forall x, mask x = true <-> P x) ->
  let result :=
    if empty (loc mask col m) then Return None
    else v <- values_0 (loc mask col m) ;; Return (Some v) in
  (result = Return None <-> forall r, In r m -> ~ P r)
  /\ (forall i, result = Return (Some i) <-> exists r, first_row P m r /\ col r = i)
  /\ (forall e, result <> Raise e)
  /\ result <> Unmodelled.
Proof.
  intros HP result. subst result.
  destruct (loc_cases mask col m) as [[Hn Hall]|(pre & r & post & E & Hpre & Hr & Hl)].
  - rewrite Hn. cbn [empty]. repeat split; try discriminate.
    + intros _ r Hin HPr. apply HP in HPr. rewrite (Hall r Hin) in HPr. discriminate.
    + intros (r & Hf & _). apply (first_row_mask P mask m r HP) in Hf.
      destruct Hf as (pre & post & -> & _ & Hr).
      rewrite Hall in Hr; [discriminate|]. apply in_or_app. right. now left.
  - rewrite Hl. cbn [empty values_0 bind]. repeat split; try discriminate.
    + intros Hnone. exfalso. apply (Hnone r).
      * subst m. apply in_or_app. right. now left.
      * now apply HP.
    + intros H. inversion H; subst. exists r. split; [|reflexivity].
      apply (first_row_mask P mask _ r HP). now exists pre, post.
    + intros (r0 & Hf & <-). apply (first_row_mask P mask m r0 HP) in Hf.
      destruct Hf as (pre0 & post0 & E0 & Hpre0 & Hr0). rewrite E in E0.
      now rewrite (first_selected_unique mask _ _ _ _ _ _ E0 Hpre Hr Hpre0 Hr0).
Qed.

(** X1: [get_rid_by_mid] never raises.  It returns [None] exactly when no
    row carries the municipality id, and otherwise the region id of the
    first row in table order that carries it. *)
Theorem get_rid_by_mid_spec (mid : Z) (mappings : mappings_table) :
  (get_rid_by_mid mid mappings = Return None
   <-> forall r, In r mappings -> municipality_id r <> mid)
  /\ (forall i, get_rid_by_mid mid mappings = Return (Some i)
      <-> exists r, first_row (fun x => municipality_id x = mid) mappings r /\ region_id r = i)
  /\ (forall e, get_rid_by_mid mid mappings <> Raise e).
Proof.
  destruct (guarded_lookup_spec (fun x => municipality_id x = mid)
              (fun r => municipality_id r =? mid) region_id mappings)
    as (H1 & H2 & H3 & _).
  { intros x. apply Z.eqb_eq. }
  unfold get_rid_by_mid. repeat split; try apply H1; try apply H2; try apply H3.
Qed.

(** X2: [get_name_by_mid] never returns [None].  It raises [IndexError]
    exactly when no row carries the municipality id, and otherwise returns
    the English name of the first row in table order that carries it. *)
Theorem get_name_by_mid_spec (mid : Z) (mappings : mappings_table) :
  (get_name_by_mid mid mappings = Raise IndexError
   <-> forall r, In r mappings -> municipality_id r <> mid)
  /\ (forall n, get_name_by_mid mid mappings = Return (Some n)
      <-> exists r, first_row (fun x => municipality_id x = mid) mappings r
                    /\ municipality_en r = n)
  /\ get_name_by_mid mid mappings <> Return None.
Proof.
  assert (HP : forall x, (municipality_id x =? mid) = true <-> municipality_id x = mid)
    by (intros x; apply Z.eqb_eq).
  unfold get_name_by_mid.
  destruct (loc_cases (fun r => municipality_id r =? mid) municipality_en mappings)
    as [[Hn Hall]|(pre & r & post & E & Hpre & Hr & Hl)].
  - rewrite Hn. cbn [values_0 bind]. repeat split; try discriminate.
    + intros _ r Hin. apply Z.eqb_neq. now apply Hall.
    + intros (r & Hf & _).
      apply (first_row_mask _ (fun r => municipality_id r =? mid) _ r HP) in Hf.
      destruct Hf as (pre & post & -> & _ & Hr).
      rewrite Hall in Hr; [discriminate|]. apply in_or_app. right. now left.
  - rewrite Hl. cbn [values_0 bind]. repeat split; try discriminate.
    + intros Hnone. exfalso. apply (Hnone r).
      * subst mappings. apply in_or_app. right. now left.
      * now apply HP.
    + intros H. inversion H; subst. exists r. split; [|reflexivity].
      apply (first_row_mask _ (fun r => municipality_id r =? mid) _ r HP).
      now exists pre, post.
    + intros (r0 & Hf & <-).
      apply (first_row_mask _ (fun r => municipality_id r =? mid) _ r0 HP) in Hf.
      destruct Hf as (pre0 & post0 & E0 & Hpre0 & Hr0). rewrite E in E0.
      now rewrite (first_selected_unique _ _ _ _ _ _ _ E0 Hpre Hr Hpre0 Hr0).
Qed.

(** X3: the two name lookups never raise.  [get_mid_by_name] returns the
    municipality id of the first row named by the key and [None] when
    there is none; a region id that [get_rid_by_name] returns is 0 for the
    key "WHOLE COUNTRY" and otherwise the region id of the first row named
    by the key, and [None] means that no row is named by the key. *)
Theorem name_lookups_sound (key : string) (mappings : mappings_table) :
  ((get_mid_by_name key mappings = Return None
    <-> forall r, In r mappings -> ~ municipality_named key r)
   /\ (forall i, get_mid_by_name key mappings = Return (Some i)
       <-> exists r, first_row (municipality_named key) mappings r /\ municipality_id r = i)
   /\ (forall e, get_mid_by_name key mappings <> Raise e))
  /\ ((get_rid_by_name key mappings = Return None
       <-> key <> "WHOLE COUNTRY" /\ forall r, In r mappings -> ~ region_named key r)
      /\ (forall i, get_rid_by_name key mappings = Return (Some i)
          <-> (key = "WHOLE COUNTRY" /\ i = 0)
              \/ (key <> "WHOLE COUNTRY"
                  /\ exists r, first_row (region_named key) mappings r /\ region_id r = i))
      /\ (forall e, get_rid_by_name key mappings <> Raise e)).
Proof.
  split.
  - destruct (guarded_lookup_spec (municipality_named key)
                (fun r => String.eqb (municipality_fi r) key
                          || String.eqb (municipality_sv r) key
                          || String.eqb (municipality_en r) key)
                municipality_id mappings) as (H1 & H2 & H3 & _).
    { intros x. apply or3_eqb. }
    unfold get_mid_by_name. repeat split; try apply H1; try apply H2; try apply H3.
  - unfold get_rid_by_name.
    destruct (String.eqb_spec key "WHOLE COUNTRY") as [E|Hne].
    + split; [|split].
      * split; [discriminate|]. intros [Hk _]. contradiction.
      * intros i. split.
        { intros H. inversion H. now left. }
        { intros [[_ ->]|[Hk _]]; [reflexivity|contradiction]. }
      * discriminate.
    + destruct (guarded_lookup_spec (region_named key)
                  (fun r => String.eqb (region_fi r) key
                            || String.eqb (region_sv r) key
                            || String.eqb (region_en r) key)
                  region_id mappings) as (H1 & H2 & H3 & _).
      { intros x. apply or3_eqb. }
      split; [|split].
      * split.
        { intros H. split; [exact Hne|]. now apply H1. }
        { intros [_ H]. now apply H1. }
      * intros i. split.
        { intros H. right. split; [exact Hne|]. now apply H2. }
        { intros [[Hk _]|[_ H]]; [contradiction|]. now apply H2. }
      * exact H3.
Qed.

Lemma loc_hit_in {A : Type} (mask : mapping_row -> bool) (col : mapping_row -> A) m v rest :
  loc mask col m = v :: rest -> exists r, In r m /\ mask r = true /\ col r = v.
Proof.
  unfold loc. intros H.
  assert (Hin : In v (map col (filter mask m))) by (rewrite H; now left).
  apply in_map_iff in Hin as (r & Hc & Hf). apply filter_In in Hf as [Hin Hm].
  now exists r.
Qed.

Lemma loc_nonempty {A : Type} (mask : mapping_row -> bool) (col : mapping_row -> A) m r :
  In r m -> mask r = true -> exists v rest, loc mask col m = v :: rest.
Proof.
  intros Hin Hm. destruct (loc mask col m) as [|v rest] eqn:E; [|eauto].
  exfalso. destruct (loc_cases mask col m) as [[_ Hall]|(pre & r0 & post & _ & _ & _ & Hl)].
  - rewrite (Hall r Hin) in Hm. discriminate.
  - rewrite E in Hl. discriminate.
Qed.

(** X4: the lookups compose.  A municipality id that [get_mid_by_name]
    returns for some name is a key of the same table: [get_rid_by_mid]
    returns a region id for it and [get_name_by_mid] returns a name for it
    without raising. *)
Theorem name_then_id_lookup (key : string) (mappings : mappings_table) (mid : Z) :
  get_mid_by_name key mappings = Return (Some mid) ->
  (exists rid, get_rid_by_mid mid mappings = Return (Some rid))
  /\ (exists n, get_name_by_mid mid mappings = Return (Some n)).
Proof.
  unfold get_mid_by_name. intros H.
  destruct (loc _ municipality_id mappings) as [|v rest] eqn:E; [discriminate|].
  cbn [empty values_0 bind] in H. inversion H; subst v.
  destruct (loc_hit_in _ _ _ _ _ E) as (r & Hin & _ & Hid).
  assert (Hm : (municipality_id r =? mid) = true) by now apply Z.eqb_eq.
  split.
  - destruct (loc_nonempty (fun r => municipality_id r =? mid) region_id _ _ Hin Hm)
      as (rid & rest' & E').
    exists rid. unfold get_rid_by_mid. now rewrite E'.
  - destruct (loc_nonempty (fun r => municipality_id r =? mid) municipality_en _ _ Hin Hm)
      as (n & rest' & E').
    exists n. unfold get_name_by_mid. now rewrite E'.
Qed.

Lemma name_then_id_lookup_witness :
  (exists rid, get_rid_by_mid 49 [turku; helsinki; espoo] = Return (Some rid))
  /\ (exists n, get_name_by_mid 49 [turku; helsinki; espoo] = Return (Some n)).
Proof.
  apply (name_then_id_lookup "Esbo" [turku; helsinki; espoo] 49). reflexivity.
Defined.

(** X5: lookups in a table made of two parts.  Each lookup answers from
    the first part when it finds the key there and from the second part
    otherwise, so appending rows never changes an answer already found; for
    [get_name_by_mid] not finding the key is the [IndexError]. *)
Theorem lookup_in_appended_tables (mid : Z) (key : string) (m1 m2 : mappings_table) :
  get_rid_by_mid mid (m1 ++ m2)%list
  = match get_rid_by_mid mid m1 with
    | Return None => get_rid_by_mid mid m2
    | found => found
    end
  /\ get_mid_by_name key (m1 ++ m2)%list
     = match get_mid_by_name key m1 with
       | Return None => get_mid_by_name key m2
       | found => found
       end
  /\ get_rid_by_name key (m1 ++ m2)%list
     = match get_rid_by_name key m1 with
       | Return None => get_rid_by_name key m2
       | found => found
       end
  /\ get_name_by_mid mid (m1 ++ m2)%list
     = match get_name_by_mid mid m1 with
       | Raise IndexError => get_name_by_mid mid m2
       | found => found
       end.
Proof.
  unfold get_rid_by_mid, get_mid_by_name, get_rid_by_name, get_name_by_mid.
  rewrite !loc_app. repeat split.
  - destruct (loc _ region_id m1); reflexivity.
  - destruct (loc _ municipality_id m1); reflexivity.
  - destruct (String.eqb key "WHOLE COUNTRY"); [reflexivity|].
    destruct (loc _ region_id m1); reflexivity.
  - destruct (loc _ municipality_en m1); reflexivity.
Qed.

(* ================================================================== *)
(** * Further properties of the quarter dates *)
(* ================================================================== *)

(** The fields of a returned date. *)
Lemma last_day_of_quarter_fields
    (representable : Z -> bool) (refusal : Z -> exn) (year quarter : Z) t :
  get_last_day_of_quarter representable refusal year quarter = Return (Some t) ->
  1 <= quarter <= 4
  /\ ts_year t = year
  /\ ts_month t = 3 * quarter
  /\ ts_day t = (if (quarter =? 1) || (quarter =? 4) then 31 else 30).
Proof.
  unfold get_last_day_of_quarter, pd_Timestamp.
  destruct (Z.eqb_spec quarter 1) as [->|N1];
    [|destruct (Z.eqb_spec quarter 2) as [->|N2];
      [|destruct (Z.eqb_spec quarter 3) as [->|N3];
        [|destruct (Z.eqb_spec quarter 4) as [->|N4]; [|discriminate]]]];
    destruct (representable year); cbn [bind]; intros H; inversion H; subst t;
    cbn [ts_year ts_month ts_day]; repeat split; try lia; reflexivity.
Qed.

(** X6: a date that [get_last_day_of_quarter] returns lies in the year
    asked for, in the third month of the quarter, and its day is the number
    of days of that month, in leap years as in others: the last day of the
    quarter.  A date is returned only for quarters 1 to 4. *)
Theorem last_day_of_quarter_is_month_end
    (representable : Z -> bool) (refusal : Z -> exn) (year quarter : Z) (t : Timestamp) :
  get_last_day_of_quarter representable refusal year quarter = Return (Some t) ->
  1 <= quarter <= 4
  /\ ts_year t = year
  /\ ts_month t = 3 * quarter
  /\ ts_day t = days_in_month year (3 * quarter).
Proof.
  intros H. destruct (last_day_of_quarter_fields _ _ _ _ _ H) as (Hq & Hy & Hm & Hd).
  repeat split; try assumption; try lia. rewrite Hd.
  assert (Hc : quarter = 1 \/ quarter = 2 \/ quarter = 3 \/ quarter = 4) by lia.
  destruct Hc as [->|[->|[->| ->]]]; reflexivity.
Qed.

Lemma last_day_of_quarter_is_month_end_witness :
  1 <= 2 <= 4
  /\ ts_year (mk_Timestamp 2024 6 30) = 2024
  /\ ts_month (mk_Timestamp 2024 6 30) = 3 * 2
  /\ ts_day (mk_Timestamp 2024 6 30) = days_in_month 2024 (3 * 2).
Proof.
  apply (last_day_of_quarter_is_month_end datetime_year datetime_refusal 2024 2
           (mk_Timestamp 2024 6 30)).
  reflexivity.
Defined.

(** X7: the dates returned are ordered like the pairs (year, quarter): an
    earlier year, or an earlier quarter of the same year, gives an earlier
    date. *)
Theorem last_day_of_quarter_increasing
    (representable : Z -> bool) (refusal : Z -> exn) (y1 q1 y2 q2 : Z) (t1 t2 : Timestamp) :
  get_last_day_of_quarter representable refusal y1 q1 = Return (Some t1) ->
  get_last_day_of_quarter representable refusal y2 q2 = Return (Some t2) ->
  y1 < y2 \/ (y1 = y2 /\ q1 < q2) ->
  date_lt t1 t2.
Proof.
  intros H1 H2 Hlt.
  destruct (last_day_of_quarter_fields _ _ _ _ _ H1) as (_ & A1 & B1 & _).
  destruct (last_day_of_quarter_fields _ _ _ _ _ H2) as (_ & A2 & B2 & _).
  unfold date_lt. lia.
Qed.

Lemma last_day_of_quarter_increasing_witness :
  date_lt (mk_Timestamp 2023 12 31) (mk_Timestamp 2024 3 31)
  /\ date_lt (mk_Timestamp 2024 3 31) (mk_Timestamp 2024 6 30).
Proof.
  split.
  - apply (last_day_of_quarter_increasing datetime_year datetime_refusal 2023 4 2024 1);
      [reflexivity..|lia].
  - apply (last_day_of_quarter_increasing datetime_year datetime_refusal 2024 1 2024 2);
      [reflexivity..|lia].
Defined.

(* ================================================================== *)
(** * The frame that [load_dataset] returns *)
(* ================================================================== *)

Lemma dtype_of_tag_inv tag t : dtype_of_tag tag = Some t -> tag = str_dtype t.
Proof.
  unfold dtype_of_tag.
  destruct (String.eqb_spec tag "int64") as [->|_]; [now intros [= <-]|].
  destruct (String.eqb_spec tag "bool") as [->|_]; [now intros [= <-]|].
  destruct (String.eqb_spec tag "object") as [->|_]; [now intros [= <-]|].
  destruct (String.eqb_spec tag "float64") as [->|_]; [now intros [= <-]|].
  destruct (String.eqb_spec tag "datetime64[ns]") as [->|_]; [now intros [= <-]|].
  destruct (String.eqb_spec tag "category") as [->|_]; [now intros [= <-]|discriminate].
Qed.

Lemma declared_dtypes_length d names ts :
  declared_dtypes d names = Some ts -> length ts = length names.
Proof.
  revert ts. induction names as [|n names IH]; intros ts H; simpl in H.
  - now inversion H.
  - destruct (dict_get n d); [|discriminate]. destruct (dtype_of_tag s); [|discriminate].
    destruct (declared_dtypes d names) as [ts'|]; [|discriminate].
    inversion H; subst. simpl. now rewrite (IH ts').
Qed.

Lemma dict_get_fold_source k v pairs d :
  dict_get k (fold_left dict_step pairs d) = Some v ->
  In (k, v) pairs \/ dict_get k d = Some v.
Proof.
  revert d. induction pairs as [|[k0 v0] pairs IH]; intros d H; simpl in H; [now right|].
  destruct (IH _ H) as [Hin|Hd]; [left; now right|].
  unfold dict_step in Hd. simpl in Hd.
  destruct (String.eqb_spec k0 k) as [->|Hne].
  - rewrite dict_get_set_same in Hd. inversion Hd. left. now left.
  - rewrite dict_get_set_other in Hd by now apply String.eqb_neq. now right.
Qed.

Lemma in_combine_positions {A B : Type} (a : list A) (b : list B) x y :
  In (x, y) (combine a b) -> exists i, nth_error a i = Some x /\ nth_error b i = Some y.
Proof.
  revert b. induction a as [|x' a IH]; intros [|y' b] H; simpl in H; try contradiction.
  destruct H as [E|H].
  - inversion E; subst. now exists O.
  - destruct (IH b H) as (i & Ha & Hb). now exists (S i).
Qed.

Lemma existsb_eqb_nth k l i :
  nth_error l i = Some k -> existsb (String.eqb k) l = true.
Proof.
  intros H. apply existsb_exists. exists k. split; [|apply String.eqb_refl].
  eapply nth_error_In; eassumption.
Qed.

(** In a list without duplicates a name stands at one position only. *)
Lemma has_duplicates_position l i j k :
  has_duplicates l = false -> nth_error l i = Some k -> nth_error l j = Some k -> i = j.
Proof.
  revert i j. induction l as [|x l IH]; intros i j Hd Hi Hj.
  - destruct i; discriminate.
  - simpl in Hd. apply orb_false_iff in Hd as [Hx Hd].
    destruct i as [|i], j as [|j]; simpl in *.
    + reflexivity.
    + inversion Hi; subst. rewrite (existsb_eqb_nth _ _ _ Hj) in Hx. discriminate.
    + inversion Hj; subst. rewrite (existsb_eqb_nth _ _ _ Hi) in Hx. discriminate.
    + f_equal. now apply IH.
Qed.

Lemma parse_int_cells_length fields r :
  parse_int_cells fields = Return r -> length (fst r) = length fields.
Proof.
  revert r. induction fields as [|x fields IH]; intros r H.
  - simpl in H. now inversion H.
  - cbn [parse_int_cells] in H. destruct (is_na x).
    + destruct (parse_int_cells fields) as [r'| |]; try discriminate.
      cbn [bind] in H. inversion H; subst. simpl. now rewrite (IH r').
    + destruct (str_to_int64 x); try discriminate; [|destruct (hopeless x); discriminate].
      destruct (parse_int_cells fields) as [r'| |]; try discriminate.
      cbn [bind] in H. inversion H; subst. simpl. now rewrite (IH r').
Qed.

Lemma parse_bool_cells_length fields r :
  parse_bool_cells fields = Return r -> length r = length fields.
Proof.
  revert r. induction fields as [|x fields IH]; intros r H.
  - simpl in H. now inversion H.
  - cbn [parse_bool_cells] in H. destruct (is_na x).
    + destruct (parse_bool_cells fields); discriminate.
    + destruct (to_boolean x); [|destruct (hopeless x); discriminate].
      destruct (parse_bool_cells fields) as [r'| |]; try discriminate.
      cbn [bind] in H. inversion H; subst. simpl. now rewrite (IH r').
Qed.

Lemma parse_float_cells_length fields r :
  parse_float_cells fields = Return r -> length r = length fields.
Proof.
  revert r. induction fields as [|x fields IH]; intros r H.
  - simpl in H. now inversion H.
  - cbn [parse_float_cells] in H. destruct (is_na x).
    + destruct (parse_float_cells fields) as [r'| |]; try discriminate.
      cbn [bind] in H. inversion H; subst. simpl. now rewrite (IH r').
    + destruct (xstrtod x); [|destruct (hopeless x); discriminate].
      destruct (parse_float_cells fields) as [r'| |]; try discriminate.
      cbn [bind] in H. inversion H; subst. simpl. now rewrite (IH r').
Qed.

(** A converted column has the declared dtype and one cell per field. *)
Lemma convert_column_return t fields s :
  convert_column t fields = Return s ->
  series_dtype s = t /\ series_len s = length fields.
Proof.
  destruct t; cbn [convert_column]; intros H.
  - destruct (parse_int_cells fields) as [r| |] eqn:E; try discriminate.
    cbn [bind] in H. destruct (snd r); [discriminate|]. inversion H; subst.
    split; [reflexivity|]. simpl. now apply parse_int_cells_length.
  - destruct (parse_bool_cells fields) as [r| |] eqn:E; try discriminate.
    cbn [bind] in H. inversion H; subst.
    split; [reflexivity|]. simpl. now apply parse_bool_cells_length.
  - inversion H; subst. split; [reflexivity|]. simpl. apply length_map.
  - destruct (parse_float_cells fields) as [r| |] eqn:E; try discriminate.
    cbn [bind] in H. inversion H; subst.
    split; [reflexivity|]. simpl. now apply parse_float_cells_length.
  - destruct fields; [|discriminate]. inversion H; subst. split; reflexivity.
  - inversion H; subst. split; [reflexivity|]. simpl. apply length_map.
Qed.

Lemma convert_columns_return schema cols df :
  length schema = length cols ->
  convert_columns schema cols = Return df ->
  columns_of df = map fst schema
  /\ dtypes df = map snd schema
  /\ map (fun c => series_len (values c)) df = map (@length string) cols.
Proof.
  revert cols df. induction schema as [|[n t] schema IH]; intros [|fields cols] df Hlen H;
    simpl in Hlen; try discriminate.
  - simpl in H. inversion H. auto.
  - cbn [convert_columns] in H.
    destruct (convert_column t fields) as [s| |] eqn:Ec; try discriminate.
    cbn [bind] in H.
    destruct (convert_columns schema cols) as [rest| |] eqn:Er; try discriminate.
    cbn [bind] in H. inversion H; subst.
    destruct (convert_column_return _ _ _ Ec) as [Hd Hl].
    destruct (IH cols rest) as (I1 & I2 & I3); [now injection Hlen|exact Er|].
    unfold columns_of, dtypes in *. cbn [map name values fst snd].
    now rewrite I1, I2, I3, Hd, Hl.
Qed.

Lemma length_combine_eq {A B : Type} (a : list A) (b : list B) :
  length a = length b -> length (combine a b) = length a
                         /\ map fst (combine a b) = a /\ map snd (combine a b) = b.
Proof.
  revert b. induction a as [|x a IH]; intros [|y b] H; simpl in *; try discriminate; auto.
  destruct (IH b) as (I1 & I2 & I3); [now injection H|]. now rewrite I1, I2, I3.
Qed.

(** What is known of a frame that [read_csv] returned. *)
Lemma read_csv_text_return body d names df :
  read_csv_text body d names = Return df ->
  exists ts rs,
    declared_dtypes d names = Some ts
    /\ records body = Some rs
    /\ has_duplicates names = false
    /\ columns_of df = names
    /\ dtypes df = ts
    /\ map (fun c => series_len (values c)) df
       = map (@length string) (transpose (length names) rs).
Proof.
  unfold read_csv_text. intros H.
  destruct (empty names); [discriminate|].
  destruct (declared_dtypes d names) as [ts|] eqn:Ed; [|discriminate].
  destruct (records body) as [rs|]; [|discriminate].
  exists ts, rs. split; [reflexivity|]. split; [reflexivity|].
  pose proof (declared_dtypes_length _ _ _ Ed) as Hlen.
  destruct (length_combine_eq names ts (eq_sym Hlen)) as (L1 & L2 & L3).
  assert (G : has_duplicates names = false
              /\ convert_columns (zip names ts) (transpose (length names) rs) = Return df).
  { destruct (row_arity (length names) true rs);
      destruct (has_duplicates names); try discriminate; auto. }
  destruct G as [Hdup Hc]. split; [exact Hdup|].
  destruct (convert_columns_return _ _ _ (eq_trans L1 (eq_sym (transpose_length _ _))) Hc)
    as (C1 & C2 & C3).
  unfold zip in *. now rewrite C1, C2, C3, L2, L3.
Qed.

Lemma transpose_column_lengths n lists :
  map (@length string) (transpose n lists) = repeat (length lists) n.
Proof.
  revert lists. induction n as [|n IH]; intros lists; simpl; [reflexivity|].
  now rewrite IH, !length_map.
Qed.


(* ================================================================== *)
(** * What the header lines tolerate *)
(* ================================================================== *)

Lemma combine_app_surplus {A B : Type} (a : list A) (b extra : list B) :
  (length a <= length b)%nat -> combine a (b ++ extra)%list = combine a b.
Proof.
  revert b. induction a as [|x a IH]; intros [|y b] H; simpl in *; try reflexivity; try lia.
  f_equal. apply IH. lia.
Qed.

(** X11: type tags beyond the number of column names are ignored.  Two
    files with the same names line and the same data, the first line of one
    being that of the other followed by further tags, give the same outcome
    when there are at least as many tags as names. *)
Theorem surplus_type_tags_ignored
    (filename : string) (w w' : world) (text text' : string)
    (types extra columns : list string) (body : string) :
  files w filename = Some text ->
  files w' filename = Some text' ->
  header_of text = Some (types, columns, body) ->
  header_of text' = Some ((types ++ extra)%list, columns, body) ->
  (length columns <= length types)%nat ->
  fst (load_dataset filename w') = fst (load_dataset filename w).
Proof.
  intros Hf Hf' Hh Hh' Hlen.
  rewrite (load_dataset_run _ _ _ Hf), (load_dataset_run _ _ _ Hf'), !load_text_header.
  rewrite Hh, Hh'. unfold zip. now rewrite combine_app_surplus.
Qed.

Lemma universal_newlines_to_crlf s :
  contains CR s = false -> universal_newlines (to_crlf s) = s.
Proof.
  induction s as [|c s IH]; [reflexivity|]. cbn [contains]. intros H.
  apply orb_false_iff in H as [Hc Hs]. cbn [to_crlf].
  destruct (Ascii.eqb_spec c LF) as [->|Hn].
  - cbn [universal_newlines]. change (Ascii.eqb CR CR) with true.
    change (Ascii.eqb LF LF) with true. cbv iota. now rewrite (IH Hs).
  - cbn [universal_newlines]. now rewrite Hc, (IH Hs).
Qed.

(** X12: a file stored with CR LF line ends loads like the same file with
    LF line ends. *)
Theorem load_dataset_accepts_crlf (filename : string) (w w' : world) (text : string) :
  contains CR text = false ->
  files w filename = Some text ->
  files w' filename = Some (to_crlf text) ->
  fst (load_dataset filename w') = fst (load_dataset filename w).
Proof.
  intros Hcr Hf Hf'.
  rewrite (load_dataset_run _ _ _ Hf), (load_dataset_run _ _ _ Hf').
  unfold load_text.
  now rewrite (universal_newlines_to_crlf _ Hcr), (universal_newlines_id _ Hcr).
Qed.

Lemma rstrip_app_blank l pad : blank pad = true -> rstrip (l ++ pad) = rstrip l.
Proof.
  intros H. induction l as [|c l IH]; simpl.
  - now apply blank_rstrip.
  - now rewrite IH.
Qed.

Lemma blank_no_line_break pad :
  blank pad = true -> contains LF pad = false /\ contains CR pad = false.
Proof.
  induction pad as [|c pad IH]; simpl; [auto|]. intros H.
  apply andb_true_iff in H as [Hc Hp]. destruct (IH Hp) as [I1 I2]. rewrite I1, I2.
  apply orb_true_iff in Hc as [Hc|Hc]; apply Ascii.eqb_eq in Hc; subst c; auto.
Qed.

(** X13: spaces and tabs at the end of the two header lines are dropped
    before the lines are split, so a file with such padding loads like the
    file without it. *)
Theorem header_padding_ignored
    (filename : string) (w w' : world) (line1 line2 pad1 pad2 body : string) :
  contains LF line1 = false -> contains LF line2 = false ->
  contains CR (line1 ++ String LF (line2 ++ String LF body)) = false ->
  blank pad1 = true -> blank pad2 = true ->
  files w filename = Some (line1 ++ String LF (line2 ++ String LF body)) ->
  files w' filename
  = Some ((line1 ++ pad1) ++ String LF ((line2 ++ pad2) ++ String LF body)) ->
  fst (load_dataset filename w') = fst (load_dataset filename w).
Proof.
  intros H1 H2 Hcr Hp1 Hp2 Hf Hf'.
  rewrite (load_dataset_run _ _ _ Hf), (load_dataset_run _ _ _ Hf').
  destruct (blank_no_line_break _ Hp1) as [L1 C1].
  destruct (blank_no_line_break _ Hp2) as [L2 C2].
  assert (P1 : contains LF (line1 ++ pad1) = false) by now rewrite contains_app, H1, L1.
  assert (P2 : contains LF (line2 ++ pad2) = false) by now rewrite contains_app, H2, L2.
  assert (P3 : contains CR ((line1 ++ pad1) ++ String LF ((line2 ++ pad2) ++ String LF body))
               = false).
  { rewrite contains_app in Hcr. cbn [contains] in Hcr.
    apply orb_false_iff in Hcr as [A Hcr]. apply orb_false_iff in Hcr as [_ Hcr].
    rewrite contains_app in Hcr. cbn [contains] in Hcr.
    apply orb_false_iff in Hcr as [B Hcr]. apply orb_false_iff in Hcr as [_ Hcr].
    rewrite !contains_app. cbn [contains]. rewrite !contains_app. cbn [contains].
    now rewrite A, B, C1, C2, Hcr. }
  rewrite (load_text_two_lines _ _ _ Hcr H1 H2), (load_text_two_lines _ _ _ P3 P1 P2).
  now rewrite !rstrip_app_blank.
Qed.

(* ================================================================== *)
(** * NA markers through the codec *)
(* ================================================================== *)

(** X14: what the round trip does to NA markers.  For a frame that meets
    the conditions of the round trip except that its string values may be
    NA markers of [read_csv] (not the empty string in a frame of one
    column), loading the saved file returns the frame with every such
    string value replaced by the missing value and everything else
    unchanged. *)
Theorem roundtrip_reads_na_as_missing (filename : string) (dataset : DataFrame) (w : world) :
  codec_plain dataset = true ->
  fst (load_dataset filename (snd (save_dataset filename dataset w)))
  = Return (read_back_frame dataset).
Proof.
  intros H. rewrite load_after_save. now apply load_saved_text_read_back.
Qed.

(** X15: two frames that are safe for the codec and are saved as the same
    text are the same frame: the file determines the frame. *)
Theorem saved_file_determines_frame
    (filename filename' : string) (d1 d2 : DataFrame) (w w' : world) :
  codec_safe d1 = true -> codec_safe d2 = true ->
  files (snd (save_dataset filename d1 w)) filename
  = files (snd (save_dataset filename' d2 w')) filename' ->
  d1 = d2.
Proof.
  intros H1 H2 E.
  destruct (save_dataset_run filename d1 w) as (_ & F1 & _).
  destruct (save_dataset_run filename' d2 w') as (_ & F2 & _).
  rewrite F1, F2 in E. inversion E as [E'].
  pose proof (load_saved_text _ H1) as L1. pose proof (load_saved_text _ H2) as L2.
  rewrite E' in L1. rewrite L1 in L2. now inversion L2.
Qed.

(* ================================================================== *)
(** * Empty lines in the data *)
(* ================================================================== *)

Lemma split_app_general sep a b :
  split sep (a ++ String sep b) = (split sep a ++ split sep b)%list.
Proof.
  induction a as [|c a IH]; cbn [append split].
  - now rewrite Ascii.eqb_refl.
  - destruct (Ascii.eqb c sep); [now rewrite IH|].
    rewrite IH. pose proof (split_nonempty sep a) as Hne.
    destruct (split sep a); [contradiction|reflexivity].
Qed.

(** The records of two texts joined by a line feed are the records of the
    first followed by those of the second. *)
Lemma tokenize_app a b :
  tokenize (a ++ String LF b) = (tokenize a ++ tokenize b)%list.
Proof.
  unfold tokenize. now rewrite split_app_general, filter_app, map_app.
Qed.

(** X16: an empty line among the data lines is skipped: when the data
    holds no quote character, a file with an additional empty line after
    some line of the data loads like the file without it. *)
Theorem empty_data_line_skipped
    (filename : string) (w w' : world) (text text' : string)
    (types columns : list string) (before after : string) :
  files w filename = Some text ->
  files w' filename = Some text' ->
  header_of text = Some (types, columns, before ++ String LF after) ->
  header_of text' = Some (types, columns, before ++ String LF (String LF after)) ->
  contains QUOTE (before ++ String LF after) = false ->
  fst (load_dataset filename w') = fst (load_dataset filename w).
Proof.
  intros Hf Hf' Hh Hh' Hq.
  rewrite (load_dataset_run _ _ _ Hf), (load_dataset_run _ _ _ Hf'), !load_text_header.
  rewrite Hh, Hh'. unfold read_csv_text.
  assert (Hq' : contains QUOTE (before ++ String LF (String LF after)) = false).
  { rewrite contains_app in Hq |- *. cbn [contains] in Hq |- *.
    destruct (contains QUOTE before); [discriminate Hq|]. cbn [orb] in *.
    destruct (contains QUOTE after); [|reflexivity].
    rewrite orb_true_r in Hq. discriminate Hq. }
  rewrite (records_quote_free _ Hq), (records_quote_free _ Hq').
  change (String LF after) with (EmptyString ++ String LF after) at 1.
  rewrite !tokenize_app. reflexivity.
Qed.


End Properties.


(* ================================================================== *)
(** * Examples *)
(* ================================================================== *)

(** The examples run the codec on frames whose floats are whole numbers
    and whose dates are days ([sample_formats]). *)
#[local] Existing Instance sample_formats.

(** ** The layout of the file *)



(** ** The round trip *)


(** A name that two columns share is refused by [read_csv]. *)
Lemma roundtrip_refuses_twin_names :
  fst (load_dataset "t.csv" (snd (save_dataset "t.csv" twin_names (initial_world no_files))))
  = Raise ValueError.
Proof.
  now rewrite load_after_save.
Qed.



(** ** Files that do not match their header *)

(** A file with three type tags over two names is loaded: the third tag is
    dropped. *)
Lemma load_dataset_accepts_mismatched_headers :
  header_of surplus_tag_file
  = Some (["int64"; "object"; "bool"], ["id"; "name"], "1,Helsinki" ++ NL)
  /\ fst (load_dataset "m.csv" (initial_world (set_file no_files "m.csv" surplus_tag_file)))
     = Return [ mk_column "id" (IntSeries [1]);
                mk_column "name" (ObjectSeries [Some "Helsinki"]) ].
Proof.
  split; reflexivity.
Qed.

Lemma load_dataset_format_errors_witness :
  fst (load_dataset "o.csv" (initial_world (set_file no_files "o.csv" ("int64,object" ++ NL))))
  = Raise StopIteration
  /\ fst (load_dataset "r.csv" (initial_world (set_file no_files "r.csv" ragged_file)))
     = Raise ParserError.
Proof.
  split.
  - apply (load_dataset_format_errors "o.csv"
             (initial_world (set_file no_files "o.csv" ("int64,object" ++ NL)))
             ("int64,object" ++ NL) eq_refl).
    reflexivity.
  - destruct (load_dataset_format_errors "r.csv"
                (initial_world (set_file no_files "r.csv" ragged_file))
                ragged_file eq_refl) as (_ & _ & H).
    apply (H ["int64"; "object"] ["id"; "name"]
             ("1,Helsinki" ++ NL ++ "2,Turku,x" ++ NL)
             [dt_int64; dt_object] [["1"; "Helsinki"]] ["2"; "Turku"; "x"] []).
    + reflexivity.
    + reflexivity.
    + reflexivity.
    + reflexivity.
    + reflexivity.
    + discriminate.
    + repeat constructor.
    + simpl. lia.
Defined.

(** ** Values that a column refuses *)


(** ** The frame that is returned *)


(** ** What the header lines tolerate *)

Lemma surplus_type_tags_ignored_witness :
  fst (load_dataset "m.csv" (initial_world (set_file no_files "m.csv" surplus_tag_file)))
  = fst (load_dataset "m.csv"
           (initial_world
              (set_file no_files "m.csv"
                 ("int64,object" ++ NL ++ "id,name" ++ NL ++ "1,Helsinki" ++ NL)))).
Proof.
  apply (surplus_type_tags_ignored "m.csv" _ _
           ("int64,object" ++ NL ++ "id,name" ++ NL ++ "1,Helsinki" ++ NL)
           surplus_tag_file ["int64"; "object"] ["bool"] ["id"; "name"]
           ("1,Helsinki" ++ NL)).
  - reflexivity.
  - reflexivity.
  - reflexivity.
  - reflexivity.
  - simpl. lia.
Defined.

Lemma load_dataset_accepts_crlf_witness :
  fst (load_dataset "c.csv"
         (initial_world (set_file no_files "c.csv" (to_crlf (saved_text cities)))))
  = Return cities.
Proof.
  rewrite (load_dataset_accepts_crlf "c.csv"
             (initial_world (set_file no_files "c.csv" (saved_text cities)))
             (initial_world (set_file no_files "c.csv" (to_crlf (saved_text cities))))
             (saved_text cities)); reflexivity.
Defined.

Lemma header_padding_ignored_witness :
  fst (load_dataset "p.csv"
         (initial_world
            (set_file no_files "p.csv"
               (("int64,object" ++ "  ") ++ String LF
                  (("id,name" ++ " ") ++ String LF ("1,Helsinki" ++ NL))))))
  = fst (load_dataset "p.csv"
           (initial_world
              (set_file no_files "p.csv"
                 ("int64,object" ++ String LF ("id,name" ++ String LF ("1,Helsinki" ++ NL)))))).
Proof.
  apply (header_padding_ignored "p.csv" _ _ "int64,object" "id,name" "  " " "
           ("1,Helsinki" ++ NL)); reflexivity.
Defined.

(** ** NA markers through the codec *)

Lemma roundtrip_reads_na_as_missing_witness :
  fst (load_dataset "g.csv" (snd (save_dataset "g.csv" gaps (initial_world no_files))))
  = Return [ mk_column "id" (IntSeries [1; 2; 3]);
             mk_column "code" (ObjectSeries [None; None; Some "FI"]);
             mk_column "note" (ObjectSeries [Some "ok"; None; None]) ].
Proof.
  apply (roundtrip_reads_na_as_missing "g.csv" gaps (initial_world no_files)).
  reflexivity.
Defined.

Lemma saved_file_determines_frame_witness : cities = cities.
Proof.
  apply (saved_file_determines_frame "a.csv" "b.csv" cities cities
           (initial_world no_files) (initial_world no_files)); reflexivity.
Defined.

(** ** Empty lines in the data *)

Lemma empty_data_line_skipped_witness :
  fst (load_dataset "s.csv"
         (initial_world
            (set_file no_files "s.csv"
               ("int64,object" ++ NL ++ "id,name" ++ NL ++ "1,Helsinki" ++ NL ++ NL
                ++ "2,Turku" ++ NL))))
  = fst (load_dataset "s.csv"
           (initial_world
              (set_file no_files "s.csv"
                 ("int64,object" ++ NL ++ "id,name" ++ NL ++ "1,Helsinki" ++ NL
                  ++ "2,Turku" ++ NL)))).
Proof.
  apply (empty_data_line_skipped "s.csv" _ _
           ("int64,object" ++ NL ++ "id,name" ++ NL ++ "1,Helsinki" ++ NL
            ++ "2,Turku" ++ NL)
           ("int64,object" ++ NL ++ "id,name" ++ NL ++ "1,Helsinki" ++ NL ++ NL
            ++ "2,Turku" ++ NL)
           ["int64"; "object"] ["id"; "name"] "1,Helsinki" ("2,Turku" ++ NL));
    reflexivity.
Defined.
